(** * Beer-garden: process supervision and liveness monitoring

    A shallow embedding of
    - [beer_garden/monitor.py]            (PluginStatusMonitor, MonitorFile),
    - [beer_garden/local_plugins/runner.py]        (read_stream, ProcessRunner),
    - [beer_garden/local_plugins/plugin_runner.py] (PluginRunner),
    followed by the properties of these definitions.

    Python statements become computations in a state-and-exception monad
    over an explicit world.  Everything the code asks of its surroundings
    (the wall clock, the stop event, the store, the broker, the operating
    system) is answered by an environment, indexed by the number of
    questions asked so far, so that every property is stated for every
    behaviour of the surroundings. *)

From Stdlib Require Import ZArith String Ascii List Lia Bool DecimalString.
From stdpp Require Import base option list gmap strings.

Local Open Scope string_scope.
Local Open Scope Z_scope.

(* ===================================================================== *)
(** * Part I: the embedding                                              *)
(* ===================================================================== *)

(** ** Python: exceptions, outcomes, the monad *)

Module Py.

(** The exception classes that occur.  The last three derive from
    [BaseException] only, so [except Exception] lets them through. *)
Inductive exn_class :=
| KeyError | TypeError | AttributeError | ValueError | OSError | RuntimeError
| OtherException
| KeyboardInterrupt | SystemExit | GeneratorExit.

Record exn := mkExn { exn_cls : exn_class; exn_str : string }.

(** [isinstance(ex, Exception)] *)
Definition is_Exception (ex : exn) : bool :=
  match exn_cls ex with
  | KeyboardInterrupt | SystemExit | GeneratorExit => false
  | _ => true
  end.

(** [str(ex)] *)
Definition str_exn (ex : exn) : string := exn_str ex.

(** How a computation over a world [W] ends: it returns, it raises, or
    the bound on loop iterations given to it is used up. *)
Inductive outcome (W A : Type) :=
| Ok (a : A) (w : W)
| Raise (ex : exn) (w : W)
| OutOfFuel (w : W).
Arguments Ok {W A} a w.
Arguments Raise {W A} ex w.
Arguments OutOfFuel {W A} w.

Definition world_of {W A} (o : outcome W A) : W :=
  match o with Ok _ w | Raise _ w | OutOfFuel w => w end.

Definition returns {W A} (o : outcome W A) : Prop :=
  match o with Ok _ _ => True | _ => False end.

Definition M (W A : Type) : Type := W -> outcome W A.

Definition ret {W A} (a : A) : M W A := fun w => Ok a w.

Definition bind {W A B} (m : M W A) (k : A -> M W B) : M W B :=
  fun w =>
    match m w with
    | Ok a w' => k a w'
    | Raise ex w' => Raise ex w'
    | OutOfFuel w' => OutOfFuel w'
    end.

Definition raise {W A} (ex : exn) : M W A := fun w => Raise ex w.

Definition out_of_fuel {W A} : M W A := fun w => OutOfFuel w.

(** [try: body / except Exception as ex: handler(ex)] *)
Definition try_except_Exception {W A}
    (body : M W A) (handler : exn -> M W A) : M W A :=
  fun w =>
    match body w with
    | Raise ex w' => if is_Exception ex then handler ex w' else Raise ex w'
    | o => o
    end.

(** [a and b], where [b] is only evaluated when [a] is true. *)
Definition and_then {W} (a : bool) (b : M W bool) : M W bool :=
  if a then b else ret false.

(** [d[key]] on a dict. *)
Definition getitem {W V} (d : gmap string V) (key : string) : M W V :=
  match d !! key with
  | Some v => ret v
  | None => raise (mkExn KeyError key)
  end.

(** Logging levels, as the [logging] module numbers them. *)
Definition DEBUG : Z := 10.
Definition INFO : Z := 20.
Definition WARNING : Z := 30.
Definition ERROR : Z := 40.
Definition CRITICAL : Z := 50.

Record LogRecord := mkLog { log_level : Z; log_msg : string }.

(** [str(n)] for an integer [n]. *)
Definition str_int (n : Z) : string := NilZero.string_of_int (Z.to_int n).

End Py.

Export Py.

Declare Scope py_scope.
Delimit Scope py_scope with py.
Notation "x <- c1 ;;; c2" := (bind c1 (fun x => c2))
  (at level 100, c1 at next level, right associativity) : py_scope.
Notation "c1 >>> c2" := (bind c1 (fun _ => c2))
  (at level 100, right associativity) : py_scope.
Local Open Scope py_scope.

(** ** beer_garden/monitor.py: PluginStatusMonitor *)

Module Monitor.

(** [brewtils.models.Instance]: the status is a string, [status_info] a
    dict whose ["heartbeat"] entry is a datetime or [None].  Datetimes and
    timedeltas are counted in microseconds. *)
Record Instance := mkInstance {
  inst_name : string;
  status : string;
  status_info : gmap string (option Z)
}.

Definition set_status (s : string) (i : Instance) : Instance :=
  {| inst_name := inst_name i; status := s; status_info := status_info i |}.

Record System := mkSystem { sys_id : string; instances : list Instance }.

Record Request := mkRequest { command : string; command_type : string }.

Record Published := mkPublished {
  pub_request : Request;
  routing_key : string;
  expiration : string
}.

Inductive DbCall :=
| Query (failure : option exn)
| Update (system : System) (failure : option exn).

Definition call_failure (c : DbCall) : option exn :=
  match c with Query f | Update _ f => f end.

(** The surroundings of the monitor thread.  Each field answers the k-th
    question the thread asks, whatever kind of question it is. *)
Record Env := mkEnv {
  env_utcnow : nat -> Z;               (* [datetime.utcnow()] *)
  env_stop_set : nat -> bool;          (* is the stop event set *)
  env_db_error : nat -> option exn;    (* does the store call fail *)
  env_queue_error : nat -> option exn  (* does the broker call fail *)
}.

Record World := mkWorld {
  store : gmap string (list Instance); (* persisted systems, by id *)
  broker : list Published;             (* messages accepted by the broker *)
  log : list LogRecord;                (* what the monitor's logger received *)
  db_calls : list DbCall;              (* store calls made, with outcomes *)
  steps : nat                          (* questions asked so far *)
}.

Definition tick (w : World) : World :=
  {| store := store w; broker := broker w; log := log w;
     db_calls := db_calls w; steps := S (steps w) |}.

Definition with_log (r : LogRecord) (w : World) : World :=
  {| store := store w; broker := broker w; log := log w ++ [r];
     db_calls := db_calls w; steps := steps w |}.

Definition with_call (c : DbCall) (w : World) : World :=
  {| store := store w; broker := broker w; log := log w;
     db_calls := db_calls w ++ [c]; steps := steps w |}.

Definition with_store (m : gmap string (list Instance)) (w : World) : World :=
  {| store := m; broker := broker w; log := log w;
     db_calls := db_calls w; steps := steps w |}.

Definition with_broker (b : list Published) (w : World) : World :=
  {| store := store w; broker := b; log := log w;
     db_calls := db_calls w; steps := steps w |}.

Section Primitives.
Variable E : Env.

(** [StoppableThread.stopped()] *)
Definition stopped : M World bool :=
  fun w => Ok (env_stop_set E (steps w)) (tick w).

(** [StoppableThread.wait(timeout)]: true when the stop event is set by
    the end of the wait.  The length of the wait is not modelled. *)
Definition wait (timeout : Z) : M World bool :=
  fun w => Ok (env_stop_set E (steps w)) (tick w).

(** [datetime.utcnow()] *)
Definition utcnow : M World Z :=
  fun w => Ok (env_utcnow E (steps w)) (tick w).

Definition logger_info (msg : string) : M World unit :=
  fun w => Ok tt (with_log (mkLog INFO msg) w).

Definition logger_warning (msg : string) : M World unit :=
  fun w => Ok tt (with_log (mkLog WARNING msg) w).

(** The stored documents as [System] objects, one per id. *)
Definition systems_of (m : gmap string (list Instance)) : list System :=
  (fun p => mkSystem p.1 p.2) <$> map_to_list m.

(** Modelled from the spec: [beer_garden.db.api.query] is not among the
    sources.  The spec's persistence collaborator hands out the known
    systems with their instances, or fails with a store error. *)
Definition db_query : M World (list System) :=
  fun w =>
    match env_db_error E (steps w) with
    | Some ex => Raise ex (tick (with_call (Query (Some ex)) w))
    | None => Ok (systems_of (store w)) (tick (with_call (Query None) w))
    end.

(** Modelled from the spec: [beer_garden.db.api.update] is not among the
    sources.  The collaborator stores the record it is given under its id,
    or fails with a store error and stores nothing. *)
Definition db_update (system : System) : M World unit :=
  fun w =>
    match env_db_error E (steps w) with
    | Some ex => Raise ex (tick (with_call (Update system (Some ex)) w))
    | None =>
        Ok tt (tick (with_call (Update system None)
                 (with_store (<[sys_id system := instances system]> (store w)) w)))
    end.

(** Modelled from the spec: [beer_garden.queue.api.put] is not among the
    sources.  The broker accepts the message or fails with a transport
    error. *)
Definition queue_put (r : Request) (rk : string) (exp : string) : M World unit :=
  fun w =>
    match env_queue_error E (steps w) with
    | Some ex => Raise ex (tick w)
    | None => Ok tt (tick (with_broker (broker w ++ [mkPublished r rk exp]) w))
    end.

End Primitives.

Record PluginStatusMonitor := mkMonitor {
  display_name : string;
  heartbeat_interval : Z;
  timeout : Z;                 (* a timedelta, in microseconds *)
  status_request : Request
}.

(** [timedelta(seconds=n)] *)
Definition timedelta_seconds (n : Z) : Z := n * 1000000.

(** [__init__(heartbeat_interval=10, timeout_seconds=30)] *)
Definition init (heartbeat_interval timeout_seconds : Z) : PluginStatusMonitor :=
  {| display_name := "Plugin Status Monitor";
     heartbeat_interval := heartbeat_interval;
     timeout := timedelta_seconds timeout_seconds;
     status_request := mkRequest "_status" "EPHEMERAL" |}.

Definition default : PluginStatusMonitor := init 10 30.

Section Methods.
Variable E : Env.
Variable self : PluginStatusMonitor.

(** [request_status] *)
Definition request_status : M World unit :=
  try_except_Exception
    (queue_put E (status_request self) "admin"
       (str_int (heartbeat_interval self * 1000)))
    (fun ex =>
       logger_warning ("Unable to publish status request: " ++ str_exn ex)).

(** [s in ["UNRESPONSIVE", "STARTING", "INITIALIZING", "UNKNOWN"]] *)
Definition revivable (s : string) : bool :=
  existsb (String.eqb s) ["UNRESPONSIVE"; "STARTING"; "INITIALIZING"; "UNKNOWN"].

(** The body of the inner loop of [check_status], after the stop test.
    [seen ++ instance :: rest] is [system.instances]; the instance is
    changed in place, so [db.update(system)] carries every change made to
    this system so far.  The result is the instance as the loop leaves it. *)
Definition check_instance (system_id : string)
    (seen : list Instance) (instance : Instance) (rest : list Instance)
  : M World Instance :=
  last_heartbeat <- getitem (status_info instance) "heartbeat" ;;;
  match last_heartbeat with
  | Some heartbeat =>
      c1 <- and_then (String.eqb (status instance) "RUNNING")
              (now <- utcnow E ;;; ret (now - heartbeat >=? timeout self)) ;;;
      if c1 then
        let instance' := set_status "UNRESPONSIVE" instance in
        db_update E (mkSystem system_id (seen ++ instance' :: rest)) >>>
        ret instance'
      else
        c2 <- and_then (revivable (status instance))
                (now <- utcnow E ;;; ret (now - heartbeat <? timeout self)) ;;;
        if c2 then
          let instance' := set_status "RUNNING" instance in
          db_update E (mkSystem system_id (seen ++ instance' :: rest)) >>>
          ret instance'
        else ret instance
  | None => ret instance
  end.

(** [for instance in system.instances: if self.stopped(): break ...] *)
Fixpoint for_instances (system_id : string)
    (seen todo : list Instance) : M World unit :=
  match todo with
  | [] => ret tt
  | instance :: rest =>
      stop <- stopped E ;;;
      if stop then ret tt
      else
        instance' <- check_instance system_id seen instance rest ;;;
        for_instances system_id (seen ++ [instance']) rest
  end.

(** [for system in ...] *)
Fixpoint for_systems (systems : list System) : M World unit :=
  match systems with
  | [] => ret tt
  | system :: more =>
      for_instances (sys_id system) [] (instances system) >>>
      for_systems more
  end.

(** [check_status] *)
Definition check_status : M World unit :=
  systems <- db_query E ;;;
  for_systems systems.

(** One turn of the loop of [run]. *)
Definition sweep : M World unit :=
  request_status >>> check_status.

(** [while not self.wait(self.heartbeat_interval): ...], at most [fuel]
    turns. *)
Fixpoint run_loop (fuel : nat) : M World unit :=
  match fuel with
  | O => out_of_fuel
  | S fuel' =>
      stop <- wait E (heartbeat_interval self) ;;;
      if stop then ret tt
      else sweep >>> run_loop fuel'
  end.

(** [run] *)
Definition run (fuel : nat) : M World unit :=
  logger_info (display_name self ++ " is started") >>>
  run_loop fuel >>>
  logger_info (display_name self ++ " is stopped").

End Methods.

(** The transition table of the specification (section 4.3), row by row:
    RUNNING with [now - lastHeartbeat >= timeout] becomes UNRESPONSIVE;
    UNRESPONSIVE, STARTING, INITIALIZING and UNKNOWN with
    [now - lastHeartbeat < timeout] become RUNNING; any other combination,
    an absent heartbeat included, is left as it is. *)
Definition spec_next_status (timeout now : Z)
    (current : string) (last_heartbeat : option Z) : string :=
  match last_heartbeat with
  | Some hb =>
      if bool_decide (current = "RUNNING") && bool_decide (timeout <= now - hb)
      then "UNRESPONSIVE"
      else if bool_decide
                (current ∈ ["UNRESPONSIVE"; "STARTING"; "INITIALIZING"; "UNKNOWN"])
              && bool_decide (now - hb < timeout)
      then "RUNNING"
      else current
  | None => current
  end.

(** The heartbeat of an instance, when it has one. *)
Definition heartbeat_of (i : Instance) : option Z :=
  match status_info i !! "heartbeat" with
  | Some (Some hb) => Some hb
  | _ => None
  end.

End Monitor.


(** ** beer_garden/monitor.py: MonitorFile *)

Module Watcher.

(** A [brewtils] event, as handed to [publish]. *)
Record Event := mkEvent { event_name : string }.

(** [watchdog]'s event types and events; a move carries the path moved
    to. *)
Inductive EventType := Created | Modified | Moved | Deleted.

Record FileSystemEvent := mkFsEvent {
  event_type : EventType;
  src_path : string;
  dest_path : option string;
  is_directory : bool
}.

(** What [__init__] sets when the path is not empty. *)
Record Watch := mkWatch {
  path : string;
  create_event : option Event;
  modified_event : option Event;
  moved_event : option Event;
  deleted_event : option Event;
  patterns : list string;
  ignore_directories : bool
}.

Record MonitorFile := mkMonitorFile {
  file : option string;
  watch : option Watch
}.

(** What the polling observer keeps of a directory entry ([os.stat]);
    [st_ino] stands for the pair of inode and device. *)
Record Stat := mkStat {
  st_ino : Z;
  st_mtime : Z;
  st_size : Z;
  st_isdir : bool
}.

(** A listing of the watched directory ([DirectorySnapshot], not
    recursive): the directory and its entries, by path. *)
Abbreviation Snapshot := (gmap string Stat).

Record World := mkWorld {
  published : list Event;     (* events handed to [publish], oldest first *)
  observing : bool;           (* the observer's thread is running *)
  snapshot : option Snapshot  (* the listing the polling emitter took
                                 last, while it is running *)
}.

(** Modelled from the spec: [beer_garden.events.publish] is not among the
    sources.  Publishing is fire-and-forget and returns nothing. *)
Definition publish (e : Event) : M World unit :=
  fun w => Ok tt {| published := published w ++ [e];
                    observing := observing w; snapshot := snapshot w |}.

(** *** The polling observer

    [PollingObserver] lists the directory at every poll and compares the
    listing with the one before ([DirectorySnapshotDiff]). *)

Definition paths (s : Snapshot) : list string := (map_to_list s).*1.

Definition inode (s : Snapshot) (p : string) : option Z := st_ino <$> s !! p.

(** [snapshot.path(inode)]: a path of the listing with that inode. *)
Definition path_of (s : Snapshot) (i : Z) : option string :=
  (fun e : nat * (string * Stat) => e.2.1)
    <$> list_find (fun e : string * Stat => st_ino e.2 = i) (map_to_list s).

Definition isdir (s : Snapshot) (p : string) : bool :=
  from_option st_isdir false (s !! p).

Section Diff.
(** The listing before and the new one. *)
Variables ref snap : Snapshot.

(** The modification time or the size differ. *)
Definition differs (a b : string) : bool :=
  negb (bool_decide ((st_mtime <$> ref !! a) = (st_mtime <$> snap !! b)))
  || negb (bool_decide ((st_size <$> ref !! a) = (st_size <$> snap !! b))).

(** Paths that are no longer listed, or are listed with another inode;
    and paths that are newly listed, or are listed with another inode. *)
Definition gone : list string :=
  filter (fun p => inode snap p <> inode ref p) (paths ref).

Definition come : list string :=
  filter (fun p => inode ref p <> inode snap p) (paths snap).

(** A path that is gone was moved when its inode is listed under a path
    of the new listing; a path that has come was moved when its inode was
    listed before. *)
Definition moved_to (p : string) : option string := inode ref p ≫= path_of snap.
Definition moved_from (p : string) : option string := inode snap p ≫= path_of ref.

Definition deleted : list string := filter (fun p => moved_to p = None) gone.
Definition created : list string := filter (fun p => moved_from p = None) come.

Definition moved : list (string * string) :=
  remove_dups (omap (fun p => pair p <$> moved_to p) gone
               ++ omap (fun p => (fun q => (q, p)) <$> moved_from p) come).

(** Modified: listed twice with the same inode and another time or size,
    or moved with another time or size. *)
Definition modified : list string :=
  remove_dups
    (filter (fun p => inode ref p = inode snap p /\ differs p p = true)
       (paths ref)
     ++ (filter (fun m : string * string => differs m.1 m.2 = true) moved).*1).

Definition occurrence (dir : bool) (t : EventType) (p : string)
  : FileSystemEvent :=
  mkFsEvent t p None dir.

Definition move (dir : bool) (m : string * string) : FileSystemEvent :=
  mkFsEvent Moved m.1 (Some m.2) dir.

(** The events for files ([dir] false) or for directories, as the
    emitter queues them: deleted, modified, created, moved.  Within each
    group the order is that of a Python set; the listing's order stands
    for it. *)
Definition events_of (dir : bool) : list FileSystemEvent :=
  (occurrence dir Deleted <$> filter (fun p => isdir ref p = dir) deleted)
  ++ (occurrence dir Modified <$> filter (fun p => isdir ref p = dir) modified)
  ++ (occurrence dir Created <$> filter (fun p => isdir snap p = dir) created)
  ++ (move dir <$> filter (fun m : string * string => isdir ref m.1 = dir) moved).

(** What one poll queues: the file events, then the directory events. *)
Definition diff : list FileSystemEvent := events_of false ++ events_of true.
End Diff.

Section Init.
(** [os.path.split(path)[0]] *)
Variable dirname : string -> string.
(** What listing a directory gives at the time the observer is started:
    the listing, or the error of the operating system (the directory does
    not exist, say). *)
Variable scan : string -> exn + Snapshot.

(** [if path:] *)
Definition truthy_path (p : option string) : bool :=
  match p with
  | Some s => negb (String.eqb s "")
  | None => false
  end.

(** [observer.schedule(handler, dir); observer.start()]: starting the
    emitter takes the first listing, and what that raises is raised by
    [start] before the observer's thread runs. *)
Definition observer_start (dir : string) : M World unit :=
  fun w =>
    match scan dir with
    | inl ex => Raise ex w
    | inr s => Ok tt {| published := published w; observing := true;
                        snapshot := Some s |}
    end.

Definition init (p : option string)
    (create_event modified_event moved_event deleted_event : option Event)
  : M World MonitorFile :=
  match p with
  | Some s =>
      if negb (String.eqb s "") then
        let self :=
          {| file := p;
             watch := Some {| path := dirname s;
                              create_event := create_event;
                              modified_event := modified_event;
                              moved_event := moved_event;
                              deleted_event := deleted_event;
                              patterns := [s];
                              ignore_directories := true |} |} in
        observer_start (dirname s) >>> ret self
      else ret {| file := p; watch := None |}
  | None => ret {| file := p; watch := None |}
  end.
End Init.

(** Reading an attribute that [__init__] only sets for a non-empty path. *)
Definition attr {A} (self : MonitorFile) (name : string)
    (get : Watch -> A) : M World A :=
  match watch self with
  | Some wt => ret (get wt)
  | None =>
      raise (mkExn AttributeError
               ("'MonitorFile' object has no attribute '" ++ name ++ "'"))
  end.

Definition on_created (self : MonitorFile) (event : FileSystemEvent)
  : M World unit :=
  e <- attr self "create_event" create_event ;;;
  match e with Some ev => publish ev | None => ret tt end.

Definition on_modified (self : MonitorFile) (event : FileSystemEvent)
  : M World unit :=
  e <- attr self "modified_event" modified_event ;;;
  match e with Some ev => publish ev | None => ret tt end.

Definition on_moved (self : MonitorFile) (event : FileSystemEvent)
  : M World unit :=
  e <- attr self "moved_event" moved_event ;;;
  match e with Some ev => publish ev | None => ret tt end.

Definition on_deleted (self : MonitorFile) (event : FileSystemEvent)
  : M World unit :=
  e <- attr self "deleted_event" deleted_event ;;;
  match e with Some ev => publish ev | None => ret tt end.

Section Dispatch.
(** [watchdog]'s test of a path against a pattern. *)
Variable match_path : string -> string -> bool.

(** The paths of an event that are tested against the patterns: the
    destination of a move and the source. *)
Definition event_paths (event : FileSystemEvent) : list string :=
  match dest_path event with
  | Some d => [d; src_path event]
  | None => [src_path event]
  end.

(** [PatternMatchingEventHandler.dispatch]: an occurrence is handed to the
    callbacks when it is not a directory event (directories are ignored)
    and one of its paths matches a pattern. *)
Definition delivered (wt : Watch) (event : FileSystemEvent) : bool :=
  negb (ignore_directories wt && is_directory event)
  && existsb (fun p => existsb (fun pat => match_path pat p) (patterns wt))
       (event_paths event).

(** The event handler built in [__init__]: the observer hands it each
    occurrence in the watched directory, and it calls the callback
    registered for the occurrence's type. *)
Definition dispatch (self : MonitorFile) (event : FileSystemEvent)
  : M World unit :=
  match watch self with
  | Some wt =>
      if delivered wt event then
        match event_type event with
        | Created => on_created self event
        | Modified => on_modified self event
        | Moved => on_moved self event
        | Deleted => on_deleted self event
        end
      else ret tt
  | None => ret tt
  end.

Fixpoint dispatch_all (self : MonitorFile) (events : list FileSystemEvent)
  : M World unit :=
  match events with
  | [] => ret tt
  | event :: more => dispatch self event >>> dispatch_all self more
  end.

(** One poll of the observer, the directory being listed as [seen]
    ([None]: it cannot be listed any more, and the emitter stops): the
    events of the comparison with the listing before are handed to the
    handler in turn, and the new listing is kept. *)
Definition poll (self : MonitorFile) (seen : option Snapshot) : M World unit :=
  fun w =>
    match snapshot w with
    | None => Ok tt w
    | Some ref =>
        match seen with
        | None => Ok tt {| published := published w; observing := observing w;
                           snapshot := None |}
        | Some snap =>
            dispatch_all self (diff ref snap)
              {| published := published w; observing := observing w;
                 snapshot := Some snap |}
        end
    end.

(** The polls of the observer's life, in turn. *)
Fixpoint observe (self : MonitorFile) (polls : list (option Snapshot))
  : M World unit :=
  match polls with
  | [] => ret tt
  | seen :: more => poll self seen >>> observe self more
  end.
End Dispatch.

(** [stop] *)
Definition stop (self : MonitorFile) : M World unit :=
  if truthy_path (file self) then
    fun w => Ok tt {| published := published w; observing := false;
                      snapshot := None |}
  else ret tt.

(** The event configured for a type of occurrence. *)
Definition configured (wt : Watch) (t : EventType) : option Event :=
  match t with
  | Created => create_event wt
  | Modified => modified_event wt
  | Moved => moved_event wt
  | Deleted => deleted_event wt
  end.

End Watcher.

(** ** The operating system, as the runners see it *)

Module Proc.

Inductive Signal := SIGINT | SIGTERM | SIGKILL.

(** [subprocess.Popen]: [pid] is a plain integer attribute. *)
Record Popen := mkPopen { pid : Z }.

(** [pathlib.Path], with the text of the path and its [name]. *)
Record Path := mkPath { path_str : string; name : string }.

Fixpoint ends_with_slash (s : string) : bool :=
  match s with
  | EmptyString => false
  | String c EmptyString => Ascii.eqb c "/"
  | String _ rest => ends_with_slash rest
  end.

(** [str(path / child)] for a relative [child]: the text of a path ends
    with a slash only when it is a root, and the current directory is
    written ["."]. *)
Definition joinpath (p : Path) (child : string) : string :=
  if String.eqb (path_str p) "." then child
  else if ends_with_slash (path_str p) then path_str p ++ child
  else path_str p ++ "/" ++ child.

(** The requests a runner makes. *)
Inductive Sys :=
| SResolve (p : string)                          (* [Path.resolve()] *)
| SPopen (args : list string) (cwd : string) (pipes : bool)
| SPoll (pid : Z)                                (* [Popen.poll()] *)
| SWait (pid : Z)                                (* [Popen.wait()] *)
| SSignal (pid : Z) (sig : Signal)               (* [os.kill], [Popen.kill] *)
| SOpenLog (p : string)                          (* [logging.FileHandler] *)
| SThreadStart (thread : string)
| SThreadAlive (thread : string)
| SThreadJoin (thread : string)
| SStopped                                       (* [StoppableThread.stopped()] *)
| SSleep.

Record SysCall := mkCall { sys : Sys; failure : option exn }.

(** The surroundings of a runner thread; each field answers the k-th
    request. *)
Record Env := mkEnv {
  env_fail : nat -> option exn;      (* the request fails with this *)
  env_returncode : nat -> option Z;  (* [poll()]: [None] while running *)
  env_pid : nat -> Z;                (* the pid given to a new process *)
  env_alive : nat -> bool;           (* [Thread.is_alive()] *)
  env_stop_set : nat -> bool;        (* is the stop event set *)
  env_resolved : nat -> string       (* [Path.resolve()]: the absolute path,
                                        links followed *)
}.

Record World (Self : Type) := mkWorld {
  self : Self;                       (* the runner object *)
  calls : list SysCall;              (* requests made, oldest first *)
  log : list LogRecord;              (* what [self.logger] received *)
  steps : nat                        (* requests made so far *)
}.
Arguments mkWorld {Self} self calls log steps.
Arguments self {Self} w.
Arguments calls {Self} w.
Arguments log {Self} w.
Arguments steps {Self} w.

Section Primitives.
Context {Self : Type}.
Variable E : Env.

Definition noted (s : Sys) (f : option exn) (w : World Self) : World Self :=
  {| self := self w; calls := calls w ++ [mkCall s f];
     log := log w; steps := S (steps w) |}.

(** A request that may fail. *)
Definition request (s : Sys) : M (World Self) unit :=
  fun w =>
    match env_fail E (steps w) with
    | Some ex => Raise ex (noted s (Some ex) w)
    | None => Ok tt (noted s None w)
    end.

(** A request that is answered without failing. *)
Definition ask {A} (s : Sys) (answer : nat -> A) : M (World Self) A :=
  fun w => Ok (answer (steps w)) (noted s None w).

Definition get_self : M (World Self) Self := fun w => Ok (self w) w.

Definition set_self (r : Self) : M (World Self) unit :=
  fun w => Ok tt {| self := r; calls := calls w; log := log w; steps := steps w |}.

Definition logger_log (level : Z) (msg : string) : M (World Self) unit :=
  fun w => Ok tt {| self := self w; calls := calls w;
                    log := log w ++ [mkLog level msg]; steps := steps w |}.

(** [process.poll()] *)
Definition poll (p : Popen) : M (World Self) (option Z) :=
  ask (SPoll (pid p)) (env_returncode E).

(** [process.kill()] *)
Definition Popen_kill (p : Popen) : M (World Self) unit :=
  ask (SSignal (pid p) SIGKILL) (fun _ => tt).

(** [os.kill(pid, sig)] *)
Definition os_kill (pid : Z) (sig : Signal) : M (World Self) unit :=
  ask (SSignal pid sig) (fun _ => tt).

(** [process.wait()] *)
Definition Popen_wait (p : Popen) : M (World Self) unit :=
  request (SWait (pid p)).

(** [subprocess.Popen(args=..., cwd=..., stdout=PIPE or None, ...)] *)
Definition subprocess_Popen (args : list string) (cwd : string) (pipes : bool)
  : M (World Self) Popen :=
  fun w =>
    match request (SPopen args cwd pipes) w with
    | Ok _ w' => Ok (mkPopen (env_pid E (steps w))) w'
    | Raise ex w' => Raise ex w'
    | OutOfFuel w' => OutOfFuel w'
    end.

(** [str(path.resolve())]: the file system makes the path absolute and
    follows its links; the text that comes back is the answer of the
    surroundings, not the text of [path]. *)
Definition resolve (p : Path) : M (World Self) string :=
  fun w =>
    match request (SResolve (path_str p)) w with
    | Ok _ w' => Ok (env_resolved E (steps w)) w'
    | Raise ex w' => Raise ex w'
    | OutOfFuel w' => OutOfFuel w'
    end.

(** [n()] for an integer [n]: integers cannot be called. *)
Definition call_int {A} (n : Z) : M (World Self) A :=
  raise (mkExn TypeError "'int' object is not callable").

(** [with ctx: body], for a context manager whose [__exit__] returns
    [None]: the exit code runs however the body ends, and what the body
    raised is raised again. *)
Definition with_context {A} (enter : M (World Self) unit)
    (exit : M (World Self) unit) (body : M (World Self) A) : M (World Self) A :=
  enter >>>
  (fun w =>
     match body w with
     | Ok a w' => (exit >>> ret a) w'
     | Raise ex w' => (exit >>> raise ex) w'
     | OutOfFuel w' => OutOfFuel w'
     end).

End Primitives.

(** What was added to a list of calls. *)
Definition signals_of (cs : list SysCall) : list (Z * Signal) :=
  omap (fun c => match sys c with SSignal p s => Some (p, s) | _ => None end) cs.

Definition is_wait (c : SysCall) : bool :=
  match sys c with SWait _ => true | _ => false end.

(** A stream of text lines read by a capture thread, with the callable
    iterator [iter(stream.readline, "")] over it and the loggers the
    thread writes to. *)
Record Reader := mkReader {
  pending : list string;     (* what [readline] returns, call by call,
                                before the end of the stream *)
  it_done : bool;            (* the iterator has met its sentinel *)
  sink : list LogRecord      (* what the stream's logger received *)
}.

(** [stream.readline()]: the next line, or the empty string at the end. *)
Definition readline (r : Reader) : string * Reader :=
  match pending r with
  | [] => ("", r)
  | l :: rest => (l, {| pending := rest; it_done := it_done r; sink := sink r |})
  end.

(** [next(stream_reader)]: [None] stands for [StopIteration].  Once the
    sentinel has been met the iterator stays finished. *)
Definition next_line (r : Reader) : option string * Reader :=
  if it_done r then (None, r)
  else
    let (l, r') := readline r in
    if String.eqb l "" then
      (None, {| pending := pending r'; it_done := true; sink := sink r' |})
    else (Some l, r').

(** [iter(stream.readline, "")] *)
Definition new_iter (r : Reader) : Reader :=
  {| pending := pending r; it_done := false; sink := sink r |}.

Definition emit (level : Z) (msg : string) (r : Reader) : Reader :=
  {| pending := pending r; it_done := it_done r;
     sink := sink r ++ [mkLog level msg] |}.

(** [str.isspace] on the characters below 256. *)
Definition isspace (c : ascii) : bool :=
  let n := N_of_ascii c in
  ((9 <=? n) && (n <=? 13) || (28 <=? n) && (n <=? 32)
   || (n =? 133) || (n =? 160))%N.

(** [s.rstrip()] *)
Fixpoint rstrip (s : string) : string :=
  match s with
  | EmptyString => EmptyString
  | String c rest =>
      match rstrip rest with
      | EmptyString => if isspace c then EmptyString else String c EmptyString
      | rest' => String c rest'
      end
  end.

(** [s.find(sub) != -1] *)
Fixpoint contains (sub s : string) : bool :=
  String.prefix sub s
  || match s with
     | EmptyString => false
     | String _ rest => contains sub rest
     end.

(** The capture threads: their world holds the stream being read. *)
Section Capture.
Variable E : Env.

Definition next : M (World Reader) (option string) :=
  fun w =>
    let (x, r) := next_line (self w) in
    Ok x {| self := r; calls := calls w; log := log w; steps := steps w |}.

Fixpoint for_each_line (n : nat) (body : string -> M (World Reader) unit)
  : M (World Reader) unit :=
  match n with
  | O => out_of_fuel
  | S n' =>
      x <- next ;;;
      match x with
      | Some raw_line => body raw_line >>> for_each_line n' body
      | None => ret tt
      end
  end.

(** [for raw_line in stream_reader: body]; the iterator ends after at
    most as many lines as are pending. *)
Definition for_lines (body : string -> M (World Reader) unit)
  : M (World Reader) unit :=
  fun w => for_each_line (S (length (pending (self w)))) body w.

(** A call of the stream's logger. *)
Definition stream_log (level : Z) (msg : string) : M (World Reader) unit :=
  fun w => Ok tt {| self := emit level msg (self w); calls := calls w;
                    log := log w; steps := steps w |}.

Definition start_iter : M (World Reader) unit :=
  fun w => Ok tt {| self := new_iter (self w); calls := calls w;
                    log := log w; steps := steps w |}.
End Capture.

End Proc.

(** ** beer_garden/local_plugins/runner.py *)

Module Runner.
Import Proc.

(** [read_stream(process, stream, logger)], with at most [fuel] turns of
    the [while] loop. *)
Fixpoint read_stream_loop (E : Env) (process : Popen) (fuel : nat)
  : M (World Reader) unit :=
  match fuel with
  | O => out_of_fuel
  | S fuel' =>
      rc <- poll E process ;;;
      match rc with
      | None =>
          for_lines (fun raw_line => stream_log INFO (rstrip raw_line)) >>>
          read_stream_loop E process fuel'
      | Some _ => ret tt
      end
  end.

Definition read_stream (E : Env) (process : Popen) (fuel : nat)
  : M (World Reader) unit :=
  start_iter >>> read_stream_loop E process fuel.

Record ProcessRunner := mkRunner {
  process : option Popen;
  restart : bool;
  stopped : bool;
  dead : bool;
  runner_id : string;
  instance_id : string;
  process_args : list string;
  process_cwd : Path;
  process_env : gmap string string;
  runner_name : string;
  capture_streams : bool
}.

Definition init (runner_id : string) (process_args : list string)
    (process_cwd : Path) (process_env : gmap string string)
    (capture_streams : bool) : ProcessRunner :=
  {| process := None; restart := false; stopped := false; dead := false;
     runner_id := runner_id; instance_id := "";
     process_args := process_args; process_cwd := process_cwd;
     process_env := process_env; runner_name := name process_cwd;
     capture_streams := capture_streams |}.

(** [__str__] *)
Definition str (r : ProcessRunner) : string :=
  runner_name r ++ "." ++ runner_id r.

Definition set_process (p : option Popen) (r : ProcessRunner) : ProcessRunner :=
  {| process := p; restart := restart r; stopped := stopped r; dead := dead r;
     runner_id := runner_id r; instance_id := instance_id r;
     process_args := process_args r; process_cwd := process_cwd r;
     process_env := process_env r; runner_name := runner_name r;
     capture_streams := capture_streams r |}.

Definition set_instance_id (i : string) (r : ProcessRunner) : ProcessRunner :=
  {| process := process r; restart := restart r; stopped := stopped r;
     dead := dead r; runner_id := runner_id r; instance_id := i;
     process_args := process_args r; process_cwd := process_cwd r;
     process_env := process_env r; runner_name := runner_name r;
     capture_streams := capture_streams r |}.

(** [state()] *)
Record State := mkState {
  st_runner_name : string;
  st_runner_id : string;
  st_instance_id : string;
  st_restart : bool;
  st_stopped : bool;
  st_dead : bool
}.

Definition state (r : ProcessRunner) : State :=
  {| st_runner_name := runner_name r; st_runner_id := runner_id r;
     st_instance_id := instance_id r; st_restart := restart r;
     st_stopped := stopped r; st_dead := dead r |}.

Section Methods.
Variable E : Env.
(** [repr] of the argument vector, as an f-string prints it. *)
Variable repr_args : list string -> string.

Local Abbreviation W := (World ProcessRunner).

(** [associate(instance)], given [instance.id] *)
Definition associate (instance_id : string) : M W unit :=
  r <- get_self ;;; set_self (set_instance_id instance_id r).

(** [self.process and self.process.poll() is None] *)
Definition process_is_running : M W bool :=
  r <- get_self ;;;
  match process r with
  | Some p => rc <- poll E p ;;; ret (bool_decide (rc = None))
  | None => ret false
  end.

(** [self.process.<attr>], once [self.process] is known not to be [None]. *)
Definition the_process : M W Popen :=
  r <- get_self ;;;
  match process r with
  | Some p => ret p
  | None => raise (mkExn AttributeError "'NoneType' object has no attribute")
  end.

(** [terminate] *)
Definition terminate : M W unit :=
  c <- process_is_running ;;;
  if c then
    logger_log DEBUG "About to send SIGINT" >>>
    p <- the_process ;;;
    target <- call_int (pid p) ;;;
    os_kill target SIGINT
  else ret tt.

(** [kill] *)
Definition kill : M W unit :=
  c <- process_is_running ;;;
  if c then
    logger_log WARNING "About to send SIGKILL" >>>
    p <- the_process ;;;
    Popen_kill p
  else ret tt.

(** [StreamReader.__enter__] *)
Definition StreamReader_enter (r : ProcessRunner) : M W unit :=
  if negb (capture_streams r) then ret tt
  else
    request E (SOpenLog (joinpath (process_cwd r) "plugin.stdout")) >>>
    request E (SOpenLog (joinpath (process_cwd r) "plugin.stderr")) >>>
    request E (SThreadStart (str r ++ " STDOUT Reader")) >>>
    request E (SThreadStart (str r ++ " STDERR Reader")).

(** [if thread and thread.is_alive(): thread.join()] *)
Definition join_if_alive (started : bool) (thread : string) : M W unit :=
  if started then
    alive <- ask (SThreadAlive thread) (env_alive E) ;;;
    if alive then ask (SThreadJoin thread) (fun _ => tt) else ret tt
  else ret tt.

(** [StreamReader.__exit__]; the threads exist when capture is enabled. *)
Definition StreamReader_exit (r : ProcessRunner) : M W unit :=
  join_if_alive (capture_streams r) (str r ++ " STDOUT Reader") >>>
  join_if_alive (capture_streams r) (str r ++ " STDERR Reader").

(** The body of the [try] in [run]. *)
Definition run_body : M W unit :=
  r <- get_self ;;;
  cwd <- resolve E (process_cwd r) ;;;
  p <- subprocess_Popen E (process_args r) cwd (capture_streams r) ;;;
  set_self (set_process (Some p) r) >>>
  r' <- get_self ;;;
  with_context (StreamReader_enter r') (StreamReader_exit r')
    (p' <- the_process ;;; Popen_wait E p') >>>
  r'' <- get_self ;;;
  (if String.eqb (instance_id r'') "" then
     logger_log WARNING
       ("Plugin " ++ str r'' ++ " terminated before successfully initializing.")
   else ret tt) >>>
  logger_log DEBUG "Plugin is officially stopped".

(** [run]; [logger.exception] logs at ERROR. *)
Definition run : M W unit :=
  r <- get_self ;;;
  logger_log DEBUG ("Starting process with args " ++ repr_args (process_args r)) >>>
  try_except_Exception run_body
    (fun ex =>
       r' <- get_self ;;;
       logger_log ERROR ("Plugin " ++ str r' ++ " died: " ++ str_exn ex)).

End Methods.

End Runner.

(** ** beer_garden/local_plugins/plugin_runner.py *)

Module PluginRunner.
Import Proc.

Record PluginRunner := mkPluginRunner {
  unique_name : string;
  process_args : list string;
  process_cwd : Path;
  process_env : gmap string string;
  process : option Popen;
  log_levels : list string      (* the result of [getLogLevels()] *)
}.

Definition set_process (p : option Popen) (r : PluginRunner) : PluginRunner :=
  {| unique_name := unique_name r; process_args := process_args r;
     process_cwd := process_cwd r; process_env := process_env r;
     process := p; log_levels := log_levels r |}.

(** The level names of the [logging] module with their numbers. *)
Definition logging_level (name : string) : option Z :=
  if String.eqb name "CRITICAL" then Some 50
  else if String.eqb name "FATAL" then Some 50
  else if String.eqb name "ERROR" then Some 40
  else if String.eqb name "WARNING" then Some 30
  else if String.eqb name "WARN" then Some 30
  else if String.eqb name "INFO" then Some 20
  else if String.eqb name "DEBUG" then Some 10
  else if String.eqb name "NOTSET" then Some 0
  else None.

(** What [getattr(logging, name)] gives when the module has the name: an
    integer (a level; the module's boolean switches count as integers
    too), or some other object (a function such as [info], a class such
    as [Logger]). *)
Inductive attr := AttrInt (n : Z) | AttrObject.

(** [str(process.poll())] *)
Definition str_status (rc : option Z) : string :=
  match rc with Some n => str_int n | None => "None" end.

Section Methods.
Variable E : Env.
Variable repr_args : list string -> string.
(** The names of the [logging] module other than its level names: what
    each one is bound to, or [None] when the module has no such name. *)
Variable logging_other : string -> option attr.

Local Abbreviation W := (World PluginRunner).

(** [self.process and self.process.poll() is None] *)
Definition process_is_running : M W bool :=
  r <- get_self ;;;
  match process r with
  | Some p => rc <- poll E p ;;; ret (bool_decide (rc = None))
  | None => ret false
  end.

Definition the_process {S} (r : PluginRunner) : M (World S) Popen :=
  match process r with
  | Some p => ret p
  | None => raise (mkExn AttributeError "'NoneType' object has no attribute")
  end.

(** [kill] *)
Definition kill : M W unit :=
  c <- process_is_running ;;;
  if c then
    r <- get_self ;;;
    logger_log WARNING ("About to kill plugin " ++ unique_name r) >>>
    p <- the_process r ;;;
    Popen_kill p >>>
    logger_log WARNING ("Plugin " ++ unique_name r ++ " has been killed")
  else ret tt.

(** [while self.process.poll() is None: sleep(0.1)], at most [fuel] turns *)
Fixpoint spin (fuel : nat) : M W unit :=
  match fuel with
  | O => out_of_fuel
  | S fuel' =>
      r <- get_self ;;;
      p <- the_process r ;;;
      rc <- poll E p ;;;
      match rc with
      | None => ask SSleep (fun _ => tt) >>> spin fuel'
      | Some _ => ret tt
      end
  end.

(** The body of the [try] in [run]. *)
Definition run_body (fuel : nat) : M W unit :=
  r <- get_self ;;;
  logger_log INFO ("Starting plugin " ++ unique_name r ++ " subprocess: "
                   ++ repr_args (process_args r)) >>>
  cwd <- resolve E (process_cwd r) ;;;
  p <- subprocess_Popen E (process_args r) cwd true ;;;
  set_self (set_process (Some p) r) >>>
  request E (SThreadStart (unique_name r ++ "_stdout_thread")) >>>
  request E (SThreadStart (unique_name r ++ "_stderr_thread")) >>>
  spin fuel >>>
  r' <- get_self ;;;
  p' <- the_process r' ;;;
  rc <- poll E p' ;;;
  logger_log INFO ("Plugin " ++ unique_name r' ++ " subprocess has stopped with exit status "
                   ++ str_status rc ++ ", performing final IO read(s)") >>>
  ask (SThreadJoin (unique_name r ++ "_stdout_thread")) (fun _ => tt) >>>
  ask (SThreadJoin (unique_name r ++ "_stderr_thread")) (fun _ => tt) >>>
  stop <- ask SStopped (env_stop_set E) ;;;
  (if negb stop then
     logger_log ERROR ("Plugin " ++ unique_name r' ++ " unexpectedly shutdown!")
   else ret tt) >>>
  logger_log INFO ("Plugin " ++ unique_name r' ++ " is officially stopped").

(** [run] *)
Definition run (fuel : nat) : M W unit :=
  try_except_Exception (run_body fuel)
    (fun ex =>
       r <- get_self ;;;
       logger_log ERROR ("Plugin " ++ unique_name r ++ " died") >>>
       logger_log ERROR (str_exn ex)).

(** [getattr(logging, name)] *)
Definition getattr_logging (name : string) : M (World Reader) attr :=
  match logging_level name with
  | Some n => ret (AttrInt n)
  | None =>
      match logging_other name with
      | Some a => ret a
      | None =>
          raise (mkExn AttributeError
                   ("module 'logging' has no attribute '" ++ name ++ "'"))
      end
  end.

(** [unformatted_logger.log(level, msg)]: [Logger.log] refuses a level
    that is not an integer. *)
Definition Logger_log (level : attr) (msg : string) : M (World Reader) unit :=
  match level with
  | AttrInt n => stream_log n msg
  | AttrObject => raise (mkExn TypeError "level must be an integer")
  end.

(** The inner loop of [_check_io]: the level is the attribute of
    [logging] named by the first entry of [log_levels] that occurs in the
    line, else the default. *)
Fixpoint level_for (line : string) (default_level : Z) (levels : list string)
  : M (World Reader) attr :=
  match levels with
  | [] => ret (AttrInt default_level)
  | level :: more =>
      if contains level line then getattr_logging level
      else level_for line default_level more
  end.

(** The body of the outer loop of [_check_io]. *)
Definition log_line (r : PluginRunner) (default_level : Z) (raw_line : string)
  : M (World Reader) unit :=
  let line := rstrip raw_line in
  level_to_log <- level_for line default_level (log_levels r) ;;;
  Logger_log level_to_log line.

(** [_check_io(stream, default_level)], called on the runner [r]; the
    method calls itself at most [fuel] times. *)
Fixpoint _check_io (r : PluginRunner) (default_level : Z) (fuel : nat)
  : M (World Reader) unit :=
  match fuel with
  | O => out_of_fuel
  | S fuel' =>
      start_iter >>>
      for_lines (log_line r default_level) >>>
      p <- the_process r ;;;
      rc <- poll E p ;;;
      match rc with
      | None =>
          logger_log DEBUG "Process isn't quite dead yet, reading IO again" >>>
          _check_io r default_level fuel'
      | Some _ => ret tt
      end
  end.

End Methods.

End PluginRunner.

(** ** Vocabulary for the properties of the monitor *)

Local Open Scope list_scope.

Module MonitorSpec.
Import Monitor.

(** The world after [db.update(system)] was asked in world [w]. *)
Definition updated (system : System) (w : World) : World :=
  tick (with_call (Update system None)
          (with_store (<[sys_id system := instances system]> (store w)) w)).

Definition update_failed (system : System) (ex : exn) (w : World) : World :=
  tick (with_call (Update system (Some ex)) w).

(** What evaluating one instance comes to. *)
Inductive check_instance_result (E : Env) (self : PluginStatusMonitor)
    (sid : string) (seen : list Instance) (i : Instance) (rest : list Instance)
    (w : World) : outcome World Instance -> Prop :=
| cir_no_key :
    status_info i !! "heartbeat" = None ->
    check_instance_result E self sid seen i rest w
      (Raise (mkExn KeyError "heartbeat") w)
| cir_kept_unread :
    is_Some (status_info i !! "heartbeat") ->
    (forall now,
        spec_next_status (timeout self) now (status i) (heartbeat_of i)
        = status i) ->
    check_instance_result E self sid seen i rest w (Ok i w)
| cir_kept_read :
    is_Some (heartbeat_of i) ->
    spec_next_status (timeout self) (env_utcnow E (steps w))
      (status i) (heartbeat_of i) = status i ->
    check_instance_result E self sid seen i rest w (Ok i (tick w))
| cir_updated s :
    is_Some (heartbeat_of i) ->
    s = spec_next_status (timeout self) (env_utcnow E (steps w))
          (status i) (heartbeat_of i) ->
    s = "RUNNING" \/ s = "UNRESPONSIVE" ->
    env_db_error E (S (steps w)) = None ->
    check_instance_result E self sid seen i rest w
      (Ok (set_status s i)
          (updated (mkSystem sid (seen ++ set_status s i :: rest)) (tick w)))
| cir_update_failed s ex :
    is_Some (heartbeat_of i) ->
    s = spec_next_status (timeout self) (env_utcnow E (steps w))
          (status i) (heartbeat_of i) ->
    s = "RUNNING" \/ s = "UNRESPONSIVE" ->
    env_db_error E (S (steps w)) = Some ex ->
    check_instance_result E self sid seen i rest w
      (Raise ex
         (update_failed (mkSystem sid (seen ++ set_status s i :: rest)) ex (tick w))).

(** An instance as a sweep may leave it in the store: as it was, or with
    its status set to RUNNING or UNRESPONSIVE, which takes a heartbeat. *)
Definition touched (i i' : Instance) : Prop :=
  i' = i
  \/ (is_Some (heartbeat_of i)
      /\ (i' = set_status "RUNNING" i \/ i' = set_status "UNRESPONSIVE" i)).

(** An instance as the table leaves it, for a reading of the clock taken
    at some step from [lo] up to, not including, [hi]. *)
Definition evaluated (E : Env) (self : PluginStatusMonitor) (lo hi : nat)
    (i i' : Instance) : Prop :=
  exists n, (lo <= n < hi)%nat
    /\ i' = set_status
              (spec_next_status (timeout self) (env_utcnow E n)
                 (status i) (heartbeat_of i)) i.

Definition succeeded (c : DbCall) : Prop := call_failure c = None.

(** How the store calls of a computation relate to the way it ends: when
    it returns they all succeeded; when it raises, either they all
    succeeded and a heartbeat entry was missing, or the last call is the
    one that failed, with the exception that is raised, and it was the
    last question asked. *)
Definition calls_explain {A} (E : Env) (o : outcome World A)
    (new : list DbCall) : Prop :=
  match o with
  | Ok _ _ => Forall succeeded new
  | Raise ex w' =>
      (Forall succeeded new /\ ex = mkExn KeyError "heartbeat")
      \/ (exists (pre : list DbCall) c, new = (pre ++ [c])%list /\ Forall succeeded pre
            /\ call_failure c = Some ex
            /\ exists n, steps w' = S n /\ env_db_error E n = Some ex)
  | OutOfFuel _ => False
  end.

(** C1 as it is written, read leniently: every known instance is left as
    the table says, each for some reading of the clock taken during the
    status check that leads from [w] to [w']. *)
Definition follows_table (E : Env) (self : PluginStatusMonitor)
    (w w' : World) : Prop :=
  forall sid insts, store w !! sid = Some insts ->
    exists insts', store w' !! sid = Some insts'
      /\ Forall2 (evaluated E self (steps w) (steps w')) insts insts'.

(** *** The status check by the table

    The status check told in the words of the table: the instances are
    taken system by system and in order, each after a test of the stop
    event; what is asked of the surroundings is numbered as in the code,
    so that the reading of the clock that belongs to an instance is the
    question right after its stop test. *)

(** Evaluating the instance asks for the time: it has a heartbeat and a
    status the table has a row for. *)
Definition reads_clock (i : Instance) : bool :=
  bool_decide (is_Some (heartbeat_of i))
  && bool_decide (status i ∈ ["RUNNING"; "UNRESPONSIVE"; "STARTING";
                              "INITIALIZING"; "UNKNOWN"]).

(** How a walk over instances or systems ends. *)
Record Walk (A : Type) := mkWalk {
  left_as : A;               (* what the store holds afterwards *)
  next_question : nat;       (* the number of the next question *)
  raised : option exn        (* the exception that ended the walk, if any *)
}.
Arguments mkWalk {A} left_as next_question raised.
Arguments left_as {A} w.
Arguments next_question {A} w.
Arguments raised {A} w.

Definition keep_first (i : Instance) (r : Walk (list Instance))
  : Walk (list Instance) :=
  mkWalk (i :: left_as r) (next_question r) (raised r).

(** The instances [todo] of one system, the stop test of the first being
    question [t]:
    - when the stop event is set, this instance and the rest are skipped;
    - when the record has no heartbeat entry, the walk ends with KeyError
      and this instance and the rest stay as they are;
    - otherwise the instance gets the status of the table for [now], the
      reading of the clock at question [t + 1] (asked only when
      [reads_clock]); a status that changes is written to the store with
      the next question, and when that fails the walk ends with the
      store's exception, this instance and the rest staying as they are. *)
Fixpoint table_instances (E : Env) (self : PluginStatusMonitor)
    (t : nat) (todo : list Instance) : Walk (list Instance) :=
  match todo with
  | [] => mkWalk [] t None
  | i :: rest =>
      if env_stop_set E t then mkWalk (i :: rest) (S t) None
      else
        match status_info i !! "heartbeat" with
        | None => mkWalk (i :: rest) (S t) (Some (mkExn KeyError "heartbeat"))
        | Some _ =>
            let now := env_utcnow E (S t) in
            let s := spec_next_status (timeout self) now
                       (status i) (heartbeat_of i) in
            let t1 := if reads_clock i then S (S t) else S t in
            if String.eqb s (status i) then
              keep_first i (table_instances E self t1 rest)
            else
              match env_db_error E t1 with
              | Some ex => mkWalk (i :: rest) (S t1) (Some ex)
              | None =>
                  keep_first (set_status s i)
                    (table_instances E self (S t1) rest)
              end
        end
  end.

(** The systems in turn, on the store [m]; an exception ends the walk and
    leaves the systems not yet reached as they are. *)
Fixpoint table_systems (E : Env) (self : PluginStatusMonitor)
    (t : nat) (systems : list System) (m : gmap string (list Instance))
  : Walk (gmap string (list Instance)) :=
  match systems with
  | [] => mkWalk m t None
  | s :: more =>
      let r := table_instances E self t (instances s) in
      let m' := <[sys_id s := left_as r]> m in
      match raised r with
      | Some ex => mkWalk m' (next_question r) (Some ex)
      | None => table_systems E self (next_question r) more m'
      end
  end.

(** The whole check in world [w]: the first question is the query of the
    store, and when it fails nothing is evaluated. *)
Definition table_check (E : Env) (self : PluginStatusMonitor) (w : World)
  : Walk (gmap string (list Instance)) :=
  match env_db_error E (steps w) with
  | Some ex => mkWalk (store w) (S (steps w)) (Some ex)
  | None => table_systems E self (S (steps w)) (systems_of (store w)) (store w)
  end.

(** A computation ends as a walk says: after the same number of
    questions, returning when the walk raised nothing and raising the
    walk's exception otherwise. *)
Definition ends_as {A} (o : outcome World unit) (r : Walk A) : Prop :=
  steps (world_of o) = next_question r
  /\ match raised r with
     | None => o = Ok tt (world_of o)
     | Some ex => o = Raise ex (world_of o)
     end.

(** The store calls and log records a computation added. *)
Definition new_calls {A} (w : World) (o : outcome World A) : list DbCall :=
  drop (length (db_calls w)) (db_calls (world_of o)).

Definition new_log {A} (w : World) (o : outcome World A) : list LogRecord :=
  drop (length (log w)) (log (world_of o)).

Definition about_system (c : DbCall) (sid : string) : Prop :=
  match c with
  | Query _ => False
  | Update system _ => sys_id system = sid
  end.

(** A store failure during a status check is isolated when the check
    still returns, something was logged, and the instances of every system
    other than the one whose call failed were evaluated all the same. *)
Definition store_failure_isolated (E : Env) (self : PluginStatusMonitor)
    (w : World) : Prop :=
  let o := check_status E self w in
  forall c ex, c ∈ new_calls w o -> call_failure c = Some ex ->
    returns o
    /\ new_log w o <> []
    /\ (forall sid insts, store w !! sid = Some insts -> ~ about_system c sid ->
          exists insts', store (world_of o) !! sid = Some insts'
            /\ Forall2 (evaluated E self (steps w) (steps (world_of o)))
                 insts insts').

(** The world after a publish that failed with [ex] was caught. *)
Definition publish_failed (ex : exn) (w : World) : World :=
  with_log (mkLog WARNING ("Unable to publish status request: " ++ str_exn ex)%string)
    (tick w).

End MonitorSpec.

(** ** Concrete surroundings and stores *)

Module MonitorExamples.
Import Monitor.

Definition seconds (n : Z) : Z := n * 1000000.

Definition inst (n s : string) (hb : option Z) : Instance :=
  mkInstance n s {[ "heartbeat" := hb ]}.

(** The clock stands at 100 s; nothing fails and nobody stops the monitor. *)
Definition calm : Env :=
  {| env_utcnow := fun _ => seconds 100;
     env_stop_set := fun _ => false;
     env_db_error := fun _ => None;
     env_queue_error := fun _ => None |}.

(** The stop event is set right after the status check has begun. *)
Definition stopping : Env :=
  {| env_utcnow := fun _ => seconds 100;
     env_stop_set := fun n => Nat.leb 1 n;
     env_db_error := fun _ => None;
     env_queue_error := fun _ => None |}.

(** The stop event is set once the first instance of [one_system] has
    been evaluated and stored (questions 0 to 3: the query, the stop test,
    the clock, the update). *)
Definition stopping_later : Env :=
  {| env_utcnow := fun _ => seconds 100;
     env_stop_set := fun n => Nat.leb 4 n;
     env_db_error := fun _ => None;
     env_queue_error := fun _ => None |}.

Definition store_down : exn := mkExn OtherException "store unreachable".

(** The first update of the store fails (question 3: after the query, the
    stop test and the clock reading). *)
Definition failing_update : Env :=
  {| env_utcnow := fun _ => seconds 100;
     env_stop_set := fun _ => false;
     env_db_error := fun n => if Nat.eqb n 3 then Some store_down else None;
     env_queue_error := fun _ => None |}.

Definition broker_down : exn := mkExn OSError "connection refused".

(** The broker refuses the first publish (question 1, after the wait). *)
Definition failing_publish : Env :=
  {| env_utcnow := fun _ => seconds 100;
     env_stop_set := fun _ => false;
     env_db_error := fun _ => None;
     env_queue_error := fun n => if Nat.eqb n 1 then Some broker_down else None |}.

(** The update that fails under [failing_update] on [two_systems]. *)
Definition failed_call : DbCall :=
  Update (mkSystem "s1" [inst "a" "UNRESPONSIVE" (Some (seconds 69))])
    (Some store_down).

Definition world_with (m : gmap string (list Instance)) : World :=
  {| store := m; broker := []; log := []; db_calls := []; steps := 0 |}.

(** One system; "a" is RUNNING with a heartbeat 31 s old, "b" is
    UNRESPONSIVE with a heartbeat 5 s old, "c" never sent a heartbeat. *)
Definition one_system : World :=
  world_with {[ "s1" := [inst "a" "RUNNING" (Some (seconds 69));
                         inst "b" "UNRESPONSIVE" (Some (seconds 95));
                         inst "c" "STARTING" None] ]}.

(** Two systems, each with one RUNNING instance whose heartbeat is 31 s
    old. *)
Definition two_systems : World :=
  world_with {[ "s1" := [inst "a" "RUNNING" (Some (seconds 69))];
                "s2" := [inst "b" "RUNNING" (Some (seconds 69))] ]}.

End MonitorExamples.

(** ** Vocabulary for the properties of the watcher *)

Module WatcherSpec.
Import Watcher.

Definition add_published (es : list Event) (w : World) : World :=
  {| published := published w ++ es; observing := observing w;
     snapshot := snapshot w |}.


Section Publishing.
Variable match_path : string -> string -> bool.

(** The events a watcher is to publish for a run of occurrences: for each
    occurrence that is handed to the callbacks, in turn, the event
    configured for its type, if any. *)
Definition to_publish (wt : Watch) (events : list FileSystemEvent) : list Event :=
  omap (fun ev => if delivered match_path wt ev
                  then configured wt (event_type ev) else None) events.

(** The path [p] is on its own in two listings: no other listed path
    matches the pattern [p], [p] is not a directory, and no other listed
    path has an inode that [p] has in either listing (the file has not
    been renamed and has no other name). *)
Definition watched_alone (p : string) (ref snap : Snapshot) : Prop :=
  (forall q, q <> p -> is_Some (ref !! q) \/ is_Some (snap !! q) ->
     match_path p q = false)
  /\ isdir ref p = false /\ isdir snap p = false
  /\ (forall q i, q <> p -> inode ref p = Some i \/ inode snap p = Some i ->
        inode ref q <> Some i /\ inode snap q <> Some i).
End Publishing.




End WatcherSpec.

(** ** Concrete watchers *)

Module WatcherExamples.
Import Watcher.

Definition created_ev : Event := mkEvent "GARDEN_FILE_CREATED".
Definition deleted_ev : Event := mkEvent "GARDEN_FILE_DELETED".
Definition modified_ev : Event := mkEvent "GARDEN_FILE_MODIFIED".
Definition moved_ev : Event := mkEvent "GARDEN_FILE_MOVED".

(** Paths are compared as they are. *)
Definition same_path (pattern p : string) : bool := String.eqb pattern p.

Definition watched : string := "/etc/garden/children.yaml".


(** A watcher of [watched] with events for create, modify and delete, and
    none for move. *)
Definition a_watch : Watch :=
  {| path := "/etc/garden";
     create_event := Some created_ev;
     modified_event := Some modified_ev;
     moved_event := None;
     deleted_event := Some deleted_ev;
     patterns := [watched];
     ignore_directories := true |}.

Definition a_watcher : MonitorFile :=
  {| file := Some watched; watch := Some a_watch |}.

(** The same watcher with an event for move as well. *)
Definition a_moving_watch : Watch :=
  {| path := "/etc/garden";
     create_event := Some created_ev;
     modified_event := Some modified_ev;
     moved_event := Some moved_ev;
     deleted_event := Some deleted_ev;
     patterns := [watched];
     ignore_directories := true |}.

Definition a_mover : MonitorFile :=
  {| file := Some watched; watch := Some a_moving_watch |}.

Definition occurrence_of (t : EventType) : FileSystemEvent :=
  {| event_type := t; src_path := watched; dest_path := None;
     is_directory := false |}.

(** The directory holding the watched file (inode 7) and another file. *)
Definition garden : Snapshot :=
  {[ "/etc/garden" := mkStat 1 0 4096 true;
     watched := mkStat 7 1 10 false;
     "/etc/garden/other.yaml" := mkStat 8 1 10 false ]}.

(** The watched file written anew: under the inode it had, and under
    another one. *)
Definition same_inode : Stat := mkStat 7 6 12 false.
Definition new_inode : Stat := mkStat 9 6 12 false.

(** The watched file renamed to, and from, a backup name. *)
Definition garden_renamed : Snapshot :=
  {[ "/etc/garden" := mkStat 1 5 4096 true;
     "/etc/garden/children.bak" := mkStat 7 1 10 false;
     "/etc/garden/other.yaml" := mkStat 8 1 10 false ]}.

Definition no_such_directory : exn :=
  mkExn OSError "No such file or directory".

(** The file system at the time the watcher is built: /etc/garden is
    listed as [garden], nothing else exists. *)
Definition scan_garden (dir : string) : exn + Snapshot :=
  if String.eqb dir "/etc/garden" then inr garden else inl no_such_directory.

Definition nothing_published : World :=
  {| published := []; observing := false; snapshot := None |}.

(** The world once [a_watcher] has been built on [garden]. *)
Definition watching : World :=
  {| published := []; observing := true; snapshot := Some garden |}.

End WatcherExamples.
(** ** Vocabulary and concrete inputs for the runners *)

Module RunnerSpec.
Import Proc.

(** The requests a computation added. *)
Definition new_calls {Self A} (w : World Self) (o : outcome (World Self) A)
  : list SysCall :=
  drop (length (calls w)) (calls (world_of o)).

Definition with_logged {Self} (level : Z) (msg : string) (w : World Self)
  : World Self :=
  {| self := self w; calls := calls w;
     log := log w ++ [mkLog level msg]; steps := steps w |}.

Definition succeeded (c : SysCall) : Prop := failure c = None.

(** Every failure the surroundings produce derives from [Exception]. *)
Definition failures_are_Exceptions (E : Env) : Prop :=
  forall n ex, env_fail E n = Some ex -> is_Exception ex = true.

(** The restart, stopped and dead flags of a runner. *)
Definition flags (r : Runner.ProcessRunner) : bool * bool * bool :=
  (Runner.restart r, Runner.stopped r, Runner.dead r).

(** [run] leaves a runner as it was but for [self.process], which it may
    have set to the process it spawned. *)
Definition only_process_set (r r' : Runner.ProcessRunner) : Prop :=
  r' = r \/ exists p, r' = Runner.set_process (Some p) r.

Definition plugin_only_process_set (r r' : PluginRunner.PluginRunner) : Prop :=
  r' = r \/ exists p, r' = PluginRunner.set_process (Some p) r.

(** A failure leaves the runner in its terminal state (the [dead] state
    of sections 3 and 8 of the specification) when, whichever request of
    [run] failed, [run] returns and the runner is dead afterwards. *)
Definition failure_leaves_runner_dead (E : Env) (repr : list string -> string)
    (w : World Runner.ProcessRunner) : Prop :=
  let o := Runner.run E repr w in
  forall c ex, c ∈ new_calls w o -> failure c = Some ex ->
    returns o /\ Runner.dead (self (world_of o)) = true.

(** The records a capture thread hands to the stream's logger for the
    lines [ls], as [read_stream] logs them. *)
Definition info_records (ls : list string) : list LogRecord :=
  map (fun raw_line => mkLog INFO (rstrip raw_line)) ls.

(** The level [_check_io] logs a line at. *)
Fixpoint level_of (line : string) (default_level : Z) (levels : list string) : Z :=
  match levels with
  | [] => default_level
  | level :: more =>
      if contains level line then
        match PluginRunner.logging_level level with
        | Some n => n
        | None => default_level
        end
      else level_of line default_level more
  end.

Definition level_records (default_level : Z) (levels : list string)
    (ls : list string) : list LogRecord :=
  map (fun raw_line =>
         mkLog (level_of (rstrip raw_line) default_level levels)
               (rstrip raw_line)) ls.

(** The world of a capture thread after its stream's logger received
    [rs] and the stream was read to its end. *)
Definition drained (rs : list LogRecord) (w : World Reader) : World Reader :=
  {| self := {| pending := []; it_done := true; sink := sink (self w) ++ rs |};
     calls := calls w; log := log w; steps := steps w |}.

Definition emitted (r : LogRecord) (w : World Reader) : World Reader :=
  {| self := emit (log_level r) (log_msg r) (self w);
     calls := calls w; log := log w; steps := steps w |}.

Definition known_levels (levels : list string) : Prop :=
  Forall (fun l => is_Some (PluginRunner.logging_level l)) levels.

End RunnerSpec.

Module RunnerExamples.
Import Proc.

Definition plugin_dir : Path := mkPath "/plugins/echo-1.0" "echo-1.0".

Definition a_runner : Runner.ProcessRunner :=
  Runner.init "r1" ["python"; "main.py"] plugin_dir ∅ true.

(** The same runner once its process, pid 4242, has been spawned. *)
Definition spawned : Runner.ProcessRunner :=
  Runner.set_process (Some (mkPopen 4242)) a_runner.

Definition a_plugin_runner : PluginRunner.PluginRunner :=
  {| PluginRunner.unique_name := "echo[default]-1.0";
     PluginRunner.process_args := ["python"; "main.py"];
     PluginRunner.process_cwd := plugin_dir;
     PluginRunner.process_env := ∅;
     PluginRunner.process := None;
     PluginRunner.log_levels :=
       ["CRITICAL"; "FATAL"; "ERROR"; "WARN"; "WARNING"; "INFO"; "DEBUG"; "NOTSET"] |}.

Definition world_of_runner {Self} (r : Self) : World Self :=
  {| self := r; calls := []; log := []; steps := 0 |}.

(** Nothing fails; the process is running at every poll. *)
Definition running : Env :=
  {| env_fail := fun _ => None;
     env_returncode := fun _ => None;
     env_pid := fun _ => 4242;
     env_alive := fun _ => true;
     env_stop_set := fun _ => false;
     env_resolved := fun _ => "/plugins/echo-1.0" |}.

(** Nothing fails; the process has exited, with status 0, at every poll. *)
Definition exited : Env :=
  {| env_fail := fun _ => None;
     env_returncode := fun _ => Some 0;
     env_pid := fun _ => 4242;
     env_alive := fun _ => false;
     env_stop_set := fun _ => false;
     env_resolved := fun _ => "/plugins/echo-1.0" |}.

(** The process is running at the first poll and has exited afterwards. *)
Definition exits_after_first_poll : Env :=
  {| env_fail := fun _ => None;
     env_returncode := fun n => if Nat.eqb n 0 then None else Some 0;
     env_pid := fun _ => 4242;
     env_alive := fun _ => false;
     env_stop_set := fun _ => false;
     env_resolved := fun _ => "/plugins/echo-1.0" |}.

Definition no_such_file : exn := mkExn OSError "No such file or directory".

(** Spawning the process fails (request 1, after resolving the working
    directory). *)
Definition spawn_fails : Env :=
  {| env_fail := fun n => if Nat.eqb n 1 then Some no_such_file else None;
     env_returncode := fun _ => Some 0;
     env_pid := fun _ => 4242;
     env_alive := fun _ => false;
     env_stop_set := fun _ => false;
     env_resolved := fun _ => "/plugins/echo-1.0" |}.


Definition repr_args (args : list string) : string :=
  "[" ++ String.concat ", " args ++ "]".

(** A stream on which two lines were written before the end. *)
Definition two_lines : Reader :=
  {| pending := ["starting" ++ String (ascii_of_nat 10) "";
                 "ready  " ++ String (ascii_of_nat 10) ""]%string;
     it_done := false; sink := [] |}.

End RunnerExamples.

(** ** Further concrete inputs *)

Module ExtraExamples.
Import Proc RunnerExamples.
(** The plugin runner of the examples once its process, pid 4242, has been
    spawned. *)
Definition spawned_plugin : PluginRunner.PluginRunner :=
  PluginRunner.set_process (Some (mkPopen 4242)) a_plugin_runner.

(** The names of [logging] that the examples use beside the level names:
    [info] and [Logger] are a function and a class, [raiseExceptions] is
    the boolean switch [True]. *)
Definition logging_names (name : string) : option PluginRunner.attr :=
  if String.eqb name "info" then Some PluginRunner.AttrObject
  else if String.eqb name "Logger" then Some PluginRunner.AttrObject
  else if String.eqb name "raiseExceptions" then Some (PluginRunner.AttrInt 1)
  else None.

(** A plugin runner whose [log_levels] hold names that are not level
    names of [logging]. *)
Definition talkative_plugin : PluginRunner.PluginRunner :=
  {| PluginRunner.unique_name := "echo[default]-1.0";
     PluginRunner.process_args := ["python"; "main.py"];
     PluginRunner.process_cwd := plugin_dir;
     PluginRunner.process_env := ∅;
     PluginRunner.process := Some (mkPopen 4242);
     PluginRunner.log_levels := ["TRACE"; "info"; "ERROR"] |}.

(** A runner given a relative working directory, which the file system
    resolves below /opt/beer-garden. *)
Definition relative_dir : Path := mkPath "plugins/echo-1.0" "echo-1.0".

Definition relative_runner (capture : bool) : Runner.ProcessRunner :=
  Runner.init "r1" ["python"; "main.py"] relative_dir ∅ capture.

(** Nothing fails, the process has exited at every poll, the reader
    threads are alive when asked. *)
Definition in_opt : Env :=
  {| env_fail := fun _ => None;
     env_returncode := fun _ => Some 0;
     env_pid := fun _ => 4242;
     env_alive := fun _ => true;
     env_stop_set := fun _ => false;
     env_resolved := fun _ => "/opt/beer-garden/plugins/echo-1.0" |}.

End ExtraExamples.


(** ** Further vocabulary for the monitor *)

Module MonitorMoreSpec.
Import Monitor MonitorSpec.

(** An instance the table leaves alone at every reading of the clock. *)
Definition settled (E : Env) (self : PluginStatusMonitor) (i : Instance) : Prop :=
  forall n,
    spec_next_status (timeout self) (env_utcnow E n) (status i) (heartbeat_of i)
    = status i.

(** An instance as a sweep may leave it: as it was, or as the table says
    for some reading of the clock. *)
Definition tabled (E : Env) (self : PluginStatusMonitor) (i i' : Instance) : Prop :=
  i' = i
  \/ exists n,
       i' = set_status
              (spec_next_status (timeout self) (env_utcnow E n)
                 (status i) (heartbeat_of i)) i.

(** The probe a sweep publishes. *)
Definition probe (self : PluginStatusMonitor) : Published :=
  mkPublished (status_request self) "admin"
    (str_int (heartbeat_interval self * 1000)).

(** The statuses the table has a row for. *)
Definition monitored (s : string) : Prop :=
  s ∈ ["RUNNING"; "UNRESPONSIVE"; "STARTING"; "INITIALIZING"; "UNKNOWN"].

End MonitorMoreSpec.

Module MonitorMoreExamples.
Import Monitor MonitorExamples.

(** One system: "a" is RUNNING with a heartbeat 5 s old, "d" is STOPPED
    with a heartbeat 5 s old. *)
Definition fresh_system : World :=
  world_with {[ "s1" := [inst "a" "RUNNING" (Some (seconds 95));
                         inst "d" "STOPPED" (Some (seconds 95))] ]}.

(** The stop event is set from the start. *)
Definition stopped_at_once : Env :=
  {| env_utcnow := fun _ => seconds 100;
     env_stop_set := fun _ => true;
     env_db_error := fun _ => None;
     env_queue_error := fun _ => None |}.

End MonitorMoreExamples.

(* ===================================================================== *)
(** * Part II: properties                                                *)
(* ===================================================================== *)

(** ** The monad *)

Module PyFacts.

Lemma bind_Ok {W A B} (m : M W A) (k : A -> M W B) w a w' :
  m w = Ok a w' -> bind m k w = k a w'.
Proof. unfold bind. now intros ->. Qed.

Lemma bind_Raise {W A B} (m : M W A) (k : A -> M W B) w ex w' :
  m w = Raise ex w' -> bind m k w = Raise ex w'.
Proof. unfold bind. now intros ->. Qed.

Lemma bind_OutOfFuel {W A B} (m : M W A) (k : A -> M W B) w w' :
  m w = OutOfFuel w' -> bind m k w = OutOfFuel w'.
Proof. unfold bind. now intros ->. Qed.

Lemma try_except_Ok {W A} (body : M W A) h w a w' :
  body w = Ok a w' -> try_except_Exception body h w = Ok a w'.
Proof. unfold try_except_Exception. now intros ->. Qed.

Lemma try_except_caught {W A} (body : M W A) h w ex w' :
  body w = Raise ex w' -> is_Exception ex = true ->
  try_except_Exception body h w = h ex w'.
Proof. unfold try_except_Exception. now intros -> ->. Qed.

Lemma try_except_OutOfFuel {W A} (body : M W A) h w w' :
  body w = OutOfFuel w' -> try_except_Exception body h w = OutOfFuel w'.
Proof. unfold try_except_Exception. now intros ->. Qed.

End PyFacts.

(** ** The liveness monitor *)

Module MonitorFacts.
Import Monitor MonitorSpec MonitorExamples PyFacts.

Lemma revivable_spec s :
  revivable s
  = bool_decide (s ∈ ["UNRESPONSIVE"; "STARTING"; "INITIALIZING"; "UNKNOWN"]).
Proof.
  unfold revivable. simpl.
  repeat match goal with
  | |- context [String.eqb s ?c] => destruct (String.eqb_spec s c); subst
  end; simpl; try reflexivity.
  symmetry. apply bool_decide_eq_false. intros H.
  repeat (apply elem_of_cons in H as [?|H]; [congruence|]).
  now apply elem_of_nil in H.
Qed.

(** The table, as the two tests of [check_status] compute it. *)
Lemma spec_next_status_code t now s hb :
  spec_next_status t now s (Some hb)
  = if String.eqb s "RUNNING" then
      if now - hb >=? t then "UNRESPONSIVE" else s
    else if revivable s then
      if now - hb <? t then "RUNNING" else s
    else s.
Proof.
  unfold spec_next_status. rewrite revivable_spec.
  destruct (String.eqb_spec s "RUNNING") as [->|Hne].
  - rewrite bool_decide_eq_true_2 by reflexivity. simpl.
    destruct (Z.geb_spec (now - hb) t).
    + rewrite bool_decide_eq_true_2 by lia. reflexivity.
    + rewrite bool_decide_eq_false_2 by lia. reflexivity.
  - rewrite (bool_decide_eq_false_2 (s = "RUNNING")) by assumption. simpl.
    destruct (bool_decide _); simpl; [|reflexivity].
    destruct (Z.ltb_spec (now - hb) t).
    + rewrite bool_decide_eq_true_2 by lia. reflexivity.
    + rewrite bool_decide_eq_false_2 by lia. reflexivity.
Qed.

Lemma spec_next_status_cases t now s hb :
  spec_next_status t now s hb = s
  \/ spec_next_status t now s hb = "RUNNING"
  \/ spec_next_status t now s hb = "UNRESPONSIVE".
Proof.
  unfold spec_next_status. destruct hb; [|now left].
  repeat (destruct (_ && _); [tauto|]). now left.
Qed.

Lemma set_status_same i : set_status (status i) i = i.
Proof. now destruct i. Qed.

Lemma status_set_status s i : status (set_status s i) = s.
Proof. reflexivity. Qed.

Lemma heartbeat_set_status s i : heartbeat_of (set_status s i) = heartbeat_of i.
Proof. reflexivity. Qed.

Lemma check_instance_spec E self sid seen i rest w :
  check_instance_result E self sid seen i rest w
    (check_instance E self sid seen i rest w).
Proof.
  unfold check_instance, getitem.
  destruct (status_info i !! "heartbeat") as [[hb|]|] eqn:Hhb; cycle 1.
  - (* the entry is None *)
    apply cir_kept_unread; [eauto|].
    intros now. unfold heartbeat_of. now rewrite Hhb.
  - now apply cir_no_key.
  - assert (Hof : heartbeat_of i = Some hb) by (unfold heartbeat_of; now rewrite Hhb).
    pose proof (spec_next_status_code (timeout self) (env_utcnow E (steps w)) (status i) hb) as Hcode.
    unfold bind at 1, ret at 1. unfold and_then.
    destruct (String.eqb (status i) "RUNNING") eqn:Hrun.
    + unfold bind at 1. unfold bind at 1, utcnow at 1, ret at 1.
      destruct (env_utcnow E (steps w) - hb >=? timeout self) eqn:Hge.
      * unfold bind, db_update, ret. simpl.
        destruct (env_db_error E (S (steps w))) as [ex|] eqn:Hdb.
        -- apply (cir_update_failed E self sid seen i rest w "UNRESPONSIVE" ex);
             rewrite ?Hof; eauto.
        -- apply (cir_updated E self sid seen i rest w "UNRESPONSIVE");
             rewrite ?Hof; eauto.
      * unfold bind at 1, ret at 1.
        assert (Hrev : revivable (status i) = false).
        { apply String.eqb_eq in Hrun. now rewrite Hrun. }
        rewrite Hrev. unfold ret.
        apply cir_kept_read; rewrite ?Hof; eauto.
    + unfold bind at 1, ret at 1.
      destruct (revivable (status i)) eqn:Hrev.
      * unfold bind at 1. unfold bind at 1, utcnow at 1, ret at 1.
        destruct (env_utcnow E (steps w) - hb <? timeout self) eqn:Hlt.
        -- unfold bind, db_update, ret. simpl.
           destruct (env_db_error E (S (steps w))) as [ex|] eqn:Hdb.
           ++ apply (cir_update_failed E self sid seen i rest w "RUNNING" ex);
                rewrite ?Hof; eauto.
           ++ apply (cir_updated E self sid seen i rest w "RUNNING");
                rewrite ?Hof; eauto.
        -- unfold ret. apply cir_kept_read; rewrite ?Hof; eauto.
      * unfold ret. apply cir_kept_unread; [eauto|].
        intros now. rewrite Hof, spec_next_status_code, Hrun, Hrev. reflexivity.
Qed.


Lemma touched_refl i : touched i i.
Proof. now left. Qed.

Lemma Forall2_touched_refl l : Forall2 touched l l.
Proof. induction l; constructor; auto using touched_refl. Qed.

Lemma touched_of_status i s :
  is_Some (heartbeat_of i) -> s = "RUNNING" \/ s = "UNRESPONSIVE" ->
  touched i (set_status s i).
Proof. intros Hhb [->| ->]; right; auto. Qed.

Lemma for_instances_cons E self sid seen i rest w :
  for_instances E self sid seen (i :: rest) w
  = if env_stop_set E (steps w) then Ok tt (tick w)
    else match check_instance E self sid seen i rest (tick w) with
         | Ok i' w1 => for_instances E self sid (seen ++ [i']) rest w1
         | Raise ex w1 => Raise ex w1
         | OutOfFuel w1 => OutOfFuel w1
         end.
Proof.
  cbn [for_instances]. unfold bind at 1, stopped at 1.
  now destruct (env_stop_set E (steps w)).
Qed.

(** The inner loop leaves the system it works on as a list of touched
    instances, and no other system is written. *)
Lemma for_instances_store E self sid todo : forall seen w,
  store w !! sid = Some (seen ++ todo) ->
  let w' := world_of (for_instances E self sid seen todo w) in
  exists todo',
    store w' !! sid = Some (seen ++ todo')
    /\ Forall2 touched todo todo'
    /\ (forall k, k <> sid -> store w' !! k = store w !! k)
    /\ (steps w <= steps w')%nat
    /\ log w' = log w /\ broker w' = broker w.
Proof.
  induction todo as [|i rest IH]; intros seen w Hsid; cbv zeta.
  - exists []. cbn. auto 10.
  - rewrite for_instances_cons.
    destruct (env_stop_set E (steps w)) eqn:Hstop.
    { exists (i :: rest). cbn. auto 10 using Forall2_touched_refl. }
    destruct (check_instance_spec E self sid seen i rest (tick w))
      as [Hk|Hk Hs|Hk Hs|s Hk Hs Hrs Hdb|s ex Hk Hs Hrs Hdb].
    + exists (i :: rest). cbn. auto 10 using Forall2_touched_refl.
    + destruct (IH (seen ++ [i]) (tick w)) as (todo' & H1 & H2 & H3 & H4 & H5 & H6).
      { cbn. now rewrite <- app_assoc. }
      exists (i :: todo'). rewrite <- app_assoc in H1. cbn in *.
      repeat split; auto using touched_refl. lia.
    + destruct (IH (seen ++ [i]) (tick (tick w))) as (todo' & H1 & H2 & H3 & H4 & H5 & H6).
      { cbn. now rewrite <- app_assoc. }
      exists (i :: todo'). rewrite <- app_assoc in H1. cbn in *.
      repeat split; auto using touched_refl. lia.
    + set (w1 := updated _ _).
      destruct (IH (seen ++ [set_status s i]) w1) as (todo' & H1 & H2 & H3 & H4 & H5 & H6).
      { subst w1. cbn. rewrite lookup_insert_eq. now rewrite <- app_assoc. }
      exists (set_status s i :: todo'). rewrite <- app_assoc in H1. cbn in *.
      repeat split; auto using touched_of_status.
      * intros k Hne. rewrite H3 by assumption. subst w1. cbn.
        now rewrite lookup_insert_ne.
      * lia.
    + exists (i :: rest). cbn. auto 10 using Forall2_touched_refl.
Qed.

Lemma for_systems_cons E self s more w :
  for_systems E self (s :: more) w
  = match for_instances E self (sys_id s) [] (instances s) w with
    | Ok _ w1 => for_systems E self more w1
    | Raise ex w1 => Raise ex w1
    | OutOfFuel w1 => OutOfFuel w1
    end.
Proof. reflexivity. Qed.

(** The outer loop: every system it was given is left as a list of
    touched instances, and nothing else in the store is written. *)
Lemma for_systems_store E self systems : forall w,
  NoDup (sys_id <$> systems) ->
  (forall s, s ∈ systems -> store w !! sys_id s = Some (instances s)) ->
  let w' := world_of (for_systems E self systems w) in
  (forall s, s ∈ systems ->
     exists l', store w' !! sys_id s = Some l' /\ Forall2 touched (instances s) l')
  /\ (forall k, k ∉ sys_id <$> systems -> store w' !! k = store w !! k)
  /\ (steps w <= steps w')%nat
  /\ log w' = log w /\ broker w' = broker w.
Proof.
  induction systems as [|s more IH]; intros w Hnd Hin; cbv zeta.
  - cbn. repeat split; auto. intros s Hs. now apply elem_of_nil in Hs.
  - rewrite fmap_cons in Hnd. apply NoDup_cons in Hnd as [Hfresh Hnd].
    rewrite for_systems_cons.
    destruct (for_instances_store E self (sys_id s) (instances s) [] w)
      as (l1 & H1 & H2 & H3 & H4 & H5 & H6).
    { cbn. apply Hin. left. }
    cbn in H1.
    assert (Hmore : forall s', s' ∈ more ->
              store (world_of (for_instances E self (sys_id s) [] (instances s) w))
                !! sys_id s' = Some (instances s')).
    { intros s' Hs'. rewrite H3.
      - apply Hin. now right.
      - intros Heq. apply Hfresh. rewrite <- Heq.
        now apply list_elem_of_fmap_2. }
    assert (Houter : forall k, k ∉ sys_id <$> s :: more ->
              store (world_of (for_instances E self (sys_id s) [] (instances s) w))
                !! k = store w !! k).
    { intros k Hk. apply H3. intros ->. apply Hk. rewrite fmap_cons. left. }
    destruct (for_instances E self (sys_id s) [] (instances s) w)
      as [[] w1|ex w1|w1] eqn:Hfi; cbn [world_of] in *.
    + destruct (IH w1 Hnd Hmore) as (I1 & I2 & I3 & I4 & I5).
      repeat split; try congruence; try lia.
      * intros s' Hs'. apply elem_of_cons in Hs' as [->|Hs'].
        -- exists l1. split; [|assumption]. now rewrite I2.
        -- now apply I1.
      * intros k Hk. rewrite I2.
        -- now apply Houter.
        -- intros Hk'. apply Hk. rewrite fmap_cons. now right.
    + repeat split; auto.
      intros s' Hs'. apply elem_of_cons in Hs' as [->|Hs'].
      * eauto.
      * exists (instances s'). split; [now apply Hmore|apply Forall2_touched_refl].
    + repeat split; auto.
      intros s' Hs'. apply elem_of_cons in Hs' as [->|Hs'].
      * eauto.
      * exists (instances s'). split; [now apply Hmore|apply Forall2_touched_refl].
Qed.

Lemma systems_of_NoDup m : NoDup (sys_id <$> systems_of m).
Proof.
  unfold systems_of. rewrite <- list_fmap_compose.
  apply (NoDup_fst_map_to_list m).
Qed.

Lemma elem_of_systems_of m s :
  s ∈ systems_of m <-> m !! sys_id s = Some (instances s).
Proof.
  unfold systems_of. rewrite list_elem_of_fmap. split.
  - intros ([k l] & -> & Hkl). cbn. now apply elem_of_map_to_list.
  - intros H. exists (sys_id s, instances s). split.
    + now destruct s.
    + now apply elem_of_map_to_list.
Qed.

Lemma check_status_unfold E self w :
  check_status E self w
  = match env_db_error E (steps w) with
    | Some ex => Raise ex (tick (with_call (Query (Some ex)) w))
    | None => for_systems E self (systems_of (store w))
                (tick (with_call (Query None) w))
    end.
Proof.
  unfold check_status, bind, db_query.
  now destruct (env_db_error E (steps w)).
Qed.

(** A whole status check, whatever the surroundings do and however it
    ends: every stored system is left as a list of touched instances, and
    no system appears or disappears. *)
Lemma check_status_store E self w :
  let w' := world_of (check_status E self w) in
  (forall k l, store w !! k = Some l ->
     exists l', store w' !! k = Some l' /\ Forall2 touched l l')
  /\ (forall k, store w !! k = None -> store w' !! k = None)
  /\ (steps w <= steps w')%nat
  /\ log w' = log w /\ broker w' = broker w.
Proof.
  cbv zeta. rewrite check_status_unfold.
  destruct (env_db_error E (steps w)) as [ex|].
  - cbn. repeat split; auto.
    intros k l Hk. exists l. split; [assumption|apply Forall2_touched_refl].
  - set (w0 := tick (with_call (Query None) w)).
    destruct (for_systems_store E self (systems_of (store w)) w0)
      as (H1 & H2 & H3 & H4 & H5).
    + apply systems_of_NoDup.
    + intros s Hs. now apply elem_of_systems_of.
    + repeat split; auto.
      * intros k l Hk. apply (H1 (mkSystem k l)). now apply elem_of_systems_of.
      * intros k Hk. rewrite H2; [assumption|].
        intros Hin. apply list_elem_of_fmap in Hin as (s & -> & Hs).
        apply elem_of_systems_of in Hs. congruence.
      * cbn in H3. lia.
Qed.

Lemma heartbeat_of_None_entry i :
  heartbeat_of i = None ->
  status_info i !! "heartbeat" = None \/ status_info i !! "heartbeat" = Some None.
Proof.
  unfold heartbeat_of.
  destruct (status_info i !! "heartbeat") as [[hb|]|]; auto; discriminate.
Qed.

(** *** The status check and the table (C1) *)

Lemma reads_clock_spec i :
  reads_clock i
  = match heartbeat_of i with
    | Some _ => String.eqb (status i) "RUNNING" || revivable (status i)
    | None => false
    end.
Proof.
  unfold reads_clock. rewrite revivable_spec.
  destruct (heartbeat_of i) as [hb|].
  - rewrite bool_decide_eq_true_2 by eauto. cbn [andb].
    destruct (String.eqb_spec (status i) "RUNNING") as [->|Hne]; [reflexivity|].
    cbn [orb].
    destruct (bool_decide (status i ∈ ["UNRESPONSIVE"; "STARTING";
                                       "INITIALIZING"; "UNKNOWN"])) eqn:Hb.
    + apply bool_decide_eq_true in Hb. apply bool_decide_eq_true_2. now right.
    + apply bool_decide_eq_false in Hb. apply bool_decide_eq_false_2.
      intros H. apply elem_of_cons in H as [H|H]; [congruence|tauto].
  - rewrite bool_decide_eq_false_2; [reflexivity|].
    intros [x Hx]. discriminate Hx.
Qed.

(** One instance, as the code evaluates it, in the words of the table. *)
Lemma check_instance_table E self sid seen i rest w :
  check_instance E self sid seen i rest w
  = match status_info i !! "heartbeat" with
    | None => Raise (mkExn KeyError "heartbeat") w
    | Some _ =>
        let s := spec_next_status (timeout self) (env_utcnow E (steps w))
                   (status i) (heartbeat_of i) in
        let w1 := if reads_clock i then tick w else w in
        if String.eqb s (status i) then Ok i w1
        else
          match env_db_error E (steps w1) with
          | Some ex =>
              Raise ex (update_failed
                          (mkSystem sid (seen ++ set_status s i :: rest)) ex w1)
          | None =>
              Ok (set_status s i)
                 (updated (mkSystem sid (seen ++ set_status s i :: rest)) w1)
          end
    end.
Proof.
  rewrite reads_clock_spec.
  unfold check_instance, getitem, heartbeat_of.
  destruct (status_info i !! "heartbeat") as [[hb|]|] eqn:Hhb; cbv zeta.
  2: { unfold bind, ret. cbn. now rewrite String.eqb_refl. }
  2: { reflexivity. }
  rewrite spec_next_status_code.
  unfold bind at 1, ret at 1. unfold and_then.
  destruct (String.eqb (status i) "RUNNING") eqn:Hrun.
  - cbn [orb]. apply String.eqb_eq in Hrun.
    unfold bind at 1. unfold bind at 1, utcnow at 1, ret at 1.
    destruct (env_utcnow E (steps w) - hb >=? timeout self) eqn:Hge.
    + rewrite Hrun. cbn [String.eqb Ascii.eqb Bool.eqb andb].
      unfold bind, db_update, ret, updated, update_failed. cbn [steps tick].
      destruct (env_db_error E (S (steps w))); reflexivity.
    + rewrite String.eqb_refl.
      unfold bind at 1, ret at 1. rewrite Hrun. cbn. reflexivity.
  - cbn [orb]. unfold bind at 1, ret at 1.
    destruct (revivable (status i)) eqn:Hrev.
    + unfold bind at 1. unfold bind at 1, utcnow at 1, ret at 1.
      destruct (env_utcnow E (steps w) - hb <? timeout self) eqn:Hlt.
      * rewrite String.eqb_sym, Hrun.
        unfold bind, db_update, ret, updated, update_failed. cbn [steps tick].
        destruct (env_db_error E (S (steps w))); reflexivity.
      * rewrite String.eqb_refl. reflexivity.
    + rewrite String.eqb_refl. reflexivity.
Qed.

Lemma ends_as_Ok {A} w (r : Walk A) :
  steps w = next_question r -> raised r = None -> ends_as (Ok tt w) r.
Proof. intros H1 H2. split; [assumption|]. now rewrite H2. Qed.

Lemma ends_as_Raise {A} ex w (r : Walk A) :
  steps w = next_question r -> raised r = Some ex -> ends_as (Raise ex w) r.
Proof. intros H1 H2. split; [assumption|]. now rewrite H2. Qed.

(** The inner loop, when the store holds [seen ++ todo] for the system:
    it leaves the store with [seen] followed by what the table makes of
    [todo], and ends as the table walk ends. *)
Lemma for_instances_table E self sid todo : forall seen w,
  store w !! sid = Some (seen ++ todo) ->
  let r := table_instances E self (steps w) todo in
  let o := for_instances E self sid seen todo w in
  store (world_of o) = <[sid := seen ++ left_as r]> (store w) /\ ends_as o r.
Proof.
  induction todo as [|i rest IH]; intros seen w Hsid; cbv zeta.
  - cbn. split; [|now apply ends_as_Ok].
    symmetry. now apply insert_id.
  - rewrite for_instances_cons. cbn [table_instances].
    destruct (env_stop_set E (steps w)) eqn:Hstop.
    { cbn. split; [|now apply ends_as_Ok]. symmetry. now apply insert_id. }
    rewrite check_instance_table. cbn [steps tick].
    destruct (status_info i !! "heartbeat") as [hb|] eqn:Hhb.
    2: { cbn. split; [|now apply ends_as_Raise]. symmetry. now apply insert_id. }
    cbv zeta.
    set (s := spec_next_status _ _ _ _).
    set (w1 := if reads_clock i then tick (tick w) else tick w).
    assert (Hs1 : steps w1 = if reads_clock i then S (S (steps w)) else S (steps w))
      by (subst w1; now destruct (reads_clock i)).
    assert (Hst1 : store w1 = store w) by (subst w1; now destruct (reads_clock i)).
    rewrite <- Hs1.
    destruct (String.eqb s (status i)) eqn:Hsame.
    + destruct (IH (seen ++ [i]) w1) as [H1 H2].
      { rewrite Hst1, <- app_assoc. exact Hsid. }
      split; [|exact H2].
      rewrite H1, Hst1, <- app_assoc. reflexivity.
    + destruct (env_db_error E (steps w1)) as [ex|] eqn:Hdb.
      * cbn. split; [|now apply ends_as_Raise].
        rewrite Hst1. symmetry. now apply insert_id.
      * set (w2 := updated _ w1).
        destruct (IH (seen ++ [set_status s i]) w2) as [H1 H2].
        { subst w2. cbn. rewrite lookup_insert_eq. now rewrite <- app_assoc. }
        split; [|exact H2].
        rewrite H1. subst w2. cbn. rewrite Hst1, insert_insert_eq, <- app_assoc.
        reflexivity.
Qed.

Lemma for_systems_table E self systems : forall w,
  NoDup (sys_id <$> systems) ->
  (forall s, s ∈ systems -> store w !! sys_id s = Some (instances s)) ->
  let r := table_systems E self (steps w) systems (store w) in
  let o := for_systems E self systems w in
  store (world_of o) = left_as r /\ ends_as o r.
Proof.
  induction systems as [|s more IH]; intros w Hnd Hin; cbv zeta.
  - cbn. split; [reflexivity|now apply ends_as_Ok].
  - rewrite fmap_cons in Hnd. apply NoDup_cons in Hnd as [Hfresh Hnd].
    rewrite for_systems_cons. cbn [table_systems]. cbv zeta.
    destruct (for_instances_table E self (sys_id s) (instances s) [] w)
      as [H1 [H2 H3]].
    { apply Hin. left. }
    cbn [app] in H1.
    destruct (raised (table_instances E self (steps w) (instances s))) as [ex|].
    + rewrite H3. cbn. split; [exact H1|]. now apply ends_as_Raise.
    + rewrite H3. rewrite <- H2, <- H1.
      apply IH; [assumption|].
      intros s' Hs'. rewrite H1, lookup_insert_ne.
      * apply Hin. now right.
      * intros Heq. apply Hfresh. rewrite Heq. now apply list_elem_of_fmap_2.
Qed.

(** C1, as amended.  Whatever the surroundings do, a status check leaves
    the store as the table walk [table_check] says, and ends as that walk
    ends.  That is: the store is asked for the systems, and when that
    fails nothing is evaluated.  Otherwise the known instances are taken
    system by system and in order, and before each one the stop event is
    tested: when it is set, that instance and the rest of its system are
    skipped and stay as they are.  An instance that is evaluated gets the
    status of the table of section 4.3 for [now] the reading of the clock
    taken for that very instance, right after its stop test: RUNNING with
    [now - lastHeartbeat >= timeout] becomes UNRESPONSIVE; UNRESPONSIVE,
    STARTING, INITIALIZING and UNKNOWN with [now - lastHeartbeat <
    timeout] become RUNNING; everything else, an instance whose heartbeat
    is None included, stays as it is.  The check ends early, every
    instance not yet evaluated staying as it is, when a record has no
    heartbeat entry (KeyError) or when writing a changed status fails
    (that instance stays as it was in the store, too). *)
Theorem check_status_follows_table E self w :
  let o := check_status E self w in
  let r := table_check E self w in
  store (world_of o) = left_as r /\ ends_as o r.
Proof.
  cbv zeta. rewrite check_status_unfold. unfold table_check.
  destruct (env_db_error E (steps w)) as [ex|].
  - cbn. split; [reflexivity|now apply ends_as_Raise].
  - apply (for_systems_table E self (systems_of (store w))
             (tick (with_call (Query None) w))).
    + apply systems_of_NoDup.
    + intros s Hs. now apply elem_of_systems_of.
Qed.

Lemma check_status_follows_table_witness :
  let o := check_status stopping_later default one_system in
  let r := table_check stopping_later default one_system in
  store (world_of o) = left_as r /\ ends_as o r.
Proof.
  apply (check_status_follows_table stopping_later default one_system).
Defined.

(** The table walk on [one_system]: when nothing disturbs it, "a" (RUNNING,
    heartbeat 31 s old) becomes UNRESPONSIVE, "b" (UNRESPONSIVE, heartbeat
    5 s old) becomes RUNNING and "c" (no heartbeat) stays STARTING. *)
Example table_check_calm :
  let r := table_check calm default one_system in
  left_as r !! "s1"
  = Some [inst "a" "UNRESPONSIVE" (Some (seconds 69));
          inst "b" "RUNNING" (Some (seconds 95));
          inst "c" "STARTING" None]
  /\ next_question r = 8%nat /\ raised r = None.
Proof. vm_compute. repeat split. Qed.

(** When the stop event is set after "a" has been evaluated, "a" is
    UNRESPONSIVE and "b" and "c" are skipped. *)
Example table_check_stopping_later :
  let r := table_check stopping_later default one_system in
  left_as r !! "s1"
  = Some [inst "a" "UNRESPONSIVE" (Some (seconds 69));
          inst "b" "UNRESPONSIVE" (Some (seconds 95));
          inst "c" "STARTING" None]
  /\ next_question r = 5%nat /\ raised r = None.
Proof. vm_compute. repeat split. Qed.

(** A store update that fails ends the walk: "a" is not written, "b" in
    the other system is not reached. *)
Example table_check_failing_update :
  let r := table_check failing_update default two_systems in
  left_as r = store two_systems
  /\ next_question r = 4%nat /\ raised r = Some store_down.
Proof. vm_compute. repeat split. Qed.

(** The table of the specification on its two examples (section 8). *)
Example table_running_31s :
  spec_next_status (timeout default) (seconds 100) "RUNNING" (Some (seconds 69))
  = "UNRESPONSIVE".
Proof. reflexivity. Qed.

Example table_unresponsive_5s :
  spec_next_status (timeout default) (seconds 100) "UNRESPONSIVE" (Some (seconds 95))
  = "RUNNING".
Proof. reflexivity. Qed.

Example check_status_stopping :
  exists w', check_status stopping default one_system = Ok tt w'
    /\ store w' = store one_system.
Proof. eexists. split; reflexivity. Qed.

(** C1, as it is written, fails when the monitor is asked to stop while a
    status check is under way: the loop over the instances is left at
    once, and instance "a", RUNNING with a heartbeat 31 s old against a
    timeout of 30 s, stays RUNNING. *)
Lemma check_status_stopped_skips_instances :
  ~ follows_table stopping default one_system
      (world_of (check_status stopping default one_system)).
Proof.
  intros H. destruct (H "s1" _ eq_refl) as (insts' & Hl & Hev).
  vm_compute in Hl. injection Hl as <-.
  apply Forall2_cons_1 in Hev as [(n & _ & Ha) _].
  apply (f_equal status) in Ha. cbn in Ha. discriminate Ha.
Qed.

(** *** What a sweep can write (C2, C9) *)

Lemma request_status_published E self w :
  env_queue_error E (steps w) = None ->
  request_status E self w
  = Ok tt (tick (with_broker
                   (broker w ++ [mkPublished (status_request self) "admin"
                                   (str_int (heartbeat_interval self * 1000))]) w)).
Proof.
  intros H. unfold request_status, try_except_Exception, queue_put.
  now rewrite H.
Qed.

Lemma request_status_caught E self w ex :
  env_queue_error E (steps w) = Some ex -> is_Exception ex = true ->
  request_status E self w = Ok tt (publish_failed ex w).
Proof.
  intros H Hex. unfold request_status, try_except_Exception, queue_put.
  now rewrite H, Hex.
Qed.

Lemma request_status_store E self w :
  let w' := world_of (request_status E self w) in
  store w' = store w /\ db_calls w' = db_calls w /\ steps w' = S (steps w).
Proof.
  cbv zeta. unfold request_status, try_except_Exception, queue_put.
  destruct (env_queue_error E (steps w)) as [ex|]; [|now cbn].
  destruct (is_Exception ex); now cbn.
Qed.

Lemma sweep_unfold E self w :
  sweep E self w
  = match request_status E self w with
    | Ok _ w1 => check_status E self w1
    | Raise ex w1 => Raise ex w1
    | OutOfFuel w1 => OutOfFuel w1
    end.
Proof. reflexivity. Qed.

(** A sweep, whatever the surroundings do and however it ends, leaves
    every stored system as a list of touched instances. *)
Lemma sweep_store E self w :
  let w' := world_of (sweep E self w) in
  forall k l, store w !! k = Some l ->
    exists l', store w' !! k = Some l' /\ Forall2 touched l l'.
Proof.
  cbv zeta. intros k l Hk. rewrite sweep_unfold.
  destruct (request_status_store E self w) as (Hs & _ & _).
  destruct (request_status E self w) as [[] w1|ex w1|w1]; cbn [world_of] in *.
  - destruct (check_status_store E self w1) as (H1 & _).
    apply H1. congruence.
  - exists l. split; [congruence|apply Forall2_touched_refl].
  - exists l. split; [congruence|apply Forall2_touched_refl].
Qed.

Lemma touched_status i i' :
  touched i i' ->
  status i' = status i \/ status i' = "RUNNING" \/ status i' = "UNRESPONSIVE".
Proof. intros [->|[_ [-> | ->]]]; auto. Qed.

(** C2.  Whatever the surroundings do and however the sweep ends, every
    instance known before the sweep is still stored after it, in the same
    place, and its status is the one it had or one of RUNNING and
    UNRESPONSIVE.  So an instance is STOPPED or DEAD after a sweep only
    when it was so before it. *)
Theorem sweep_writes_only_running_unresponsive E self w sid insts k i :
  store w !! sid = Some insts -> insts !! k = Some i ->
  exists insts' i',
    store (world_of (sweep E self w)) !! sid = Some insts'
    /\ insts' !! k = Some i'
    /\ (status i' = status i
        \/ status i' = "RUNNING" \/ status i' = "UNRESPONSIVE")
    /\ (status i' = "STOPPED" -> status i = "STOPPED")
    /\ (status i' = "DEAD" -> status i = "DEAD").
Proof.
  intros Hsid Hk.
  destruct (sweep_store E self w sid insts Hsid) as (insts' & Hl & Hall).
  destruct (Forall2_lookup_l _ _ _ _ _ Hall Hk) as (i' & Hk' & Ht).
  exists insts', i'. repeat split; try assumption.
  - now apply touched_status.
  - intros Hst. destruct (touched_status _ _ Ht) as [H|[H|H]]; congruence.
  - intros Hst. destruct (touched_status _ _ Ht) as [H|[H|H]]; congruence.
Qed.

Lemma sweep_writes_only_running_unresponsive_witness :
  exists insts' i',
    store (world_of (sweep calm default one_system)) !! "s1" = Some insts'
    /\ insts' !! 0%nat = Some i'
    /\ (status i' = "RUNNING"
        \/ status i' = "RUNNING" \/ status i' = "UNRESPONSIVE")
    /\ (status i' = "STOPPED" -> "RUNNING" = "STOPPED")
    /\ (status i' = "DEAD" -> "RUNNING" = "DEAD").
Proof.
  apply (sweep_writes_only_running_unresponsive calm default one_system "s1"
           [inst "a" "RUNNING" (Some (seconds 69));
            inst "b" "UNRESPONSIVE" (Some (seconds 95));
            inst "c" "STARTING" None] 0
           (inst "a" "RUNNING" (Some (seconds 69)))).
  - reflexivity.
  - reflexivity.
Defined.

(** C9.  An instance whose record has no heartbeat, be the entry missing
    or [None], is stored after a sweep exactly as it was before, whatever
    its status, whatever the surroundings do and however the sweep ends. *)
Theorem sweep_keeps_instance_without_heartbeat E self w sid insts k i :
  store w !! sid = Some insts -> insts !! k = Some i ->
  heartbeat_of i = None ->
  exists insts',
    store (world_of (sweep E self w)) !! sid = Some insts'
    /\ insts' !! k = Some i.
Proof.
  intros Hsid Hk Hhb.
  destruct (sweep_store E self w sid insts Hsid) as (insts' & Hl & Hall).
  destruct (Forall2_lookup_l _ _ _ _ _ Hall Hk) as (i' & Hk' & Ht).
  exists insts'. split; [assumption|].
  destruct Ht as [->|[[hb Hsome] _]]; [assumption|congruence].
Qed.

Lemma sweep_keeps_instance_without_heartbeat_witness :
  exists insts',
    store (world_of (sweep calm default one_system)) !! "s1" = Some insts'
    /\ insts' !! 2%nat = Some (inst "c" "STARTING" None).
Proof.
  apply (sweep_keeps_instance_without_heartbeat calm default one_system "s1"
           [inst "a" "RUNNING" (Some (seconds 69));
            inst "b" "UNRESPONSIVE" (Some (seconds 95));
            inst "c" "STARTING" None] 2
           (inst "c" "STARTING" None)).
  - reflexivity.
  - reflexivity.
  - reflexivity.
Defined.

(** The two ways of having no heartbeat. *)
Lemma heartbeat_of_None i :
  heartbeat_of i = None
  <-> status_info i !! "heartbeat" = None
      \/ status_info i !! "heartbeat" = Some None.
Proof.
  split; [apply heartbeat_of_None_entry|].
  unfold heartbeat_of. now intros [-> | ->].
Qed.

(** *** Store failures (C3) *)

Lemma calls_explain_cons {A} E (o : outcome World A) c new :
  succeeded c -> calls_explain E o new -> calls_explain E o (c :: new).
Proof.
  intros Hc. destruct o as [a w'|ex w'|w']; cbn; [| |tauto].
  - now constructor.
  - intros [[Hall Hex]|(pre & c0 & -> & Hpre & Hf & Hn)].
    + left. split; [now constructor|assumption].
    + right. exists (c :: pre), c0. repeat split; auto.
Qed.

Lemma for_instances_calls E self sid todo : forall seen w,
  let o := for_instances E self sid seen todo w in
  exists new,
    db_calls (world_of o) = db_calls w ++ new
    /\ calls_explain E o new
    /\ log (world_of o) = log w.
Proof.
  induction todo as [|i rest IH]; intros seen w; cbv zeta.
  - exists []. cbn. rewrite app_nil_r. repeat split. constructor.
  - rewrite for_instances_cons.
    destruct (env_stop_set E (steps w)).
    { exists []. cbn. rewrite app_nil_r. repeat split. constructor. }
    destruct (check_instance_spec E self sid seen i rest (tick w))
      as [Hk|Hk Hs|Hk Hs|s Hk Hs Hrs Hdb|s ex Hk Hs Hrs Hdb].
    + exists []. cbn. rewrite app_nil_r. repeat split. left. split; [constructor|reflexivity].
    + apply (IH (seen ++ [i]) (tick w)).
    + apply (IH (seen ++ [i]) (tick (tick w))).
    + set (w1 := updated _ _).
      destruct (IH (seen ++ [set_status s i]) w1) as (new & H1 & H2 & H3).
      exists (Update (mkSystem sid (seen ++ set_status s i :: rest)) None :: new).
      repeat split.
      * rewrite H1. subst w1. cbn. now rewrite <- app_assoc.
      * now apply calls_explain_cons.
      * rewrite H3. reflexivity.
    + exists [Update (mkSystem sid (seen ++ set_status s i :: rest)) (Some ex)].
      cbn. repeat split. right.
      exists [], (Update (mkSystem sid (seen ++ set_status s i :: rest)) (Some ex)).
      repeat split; [constructor|]. exists (S (S (steps w))). now split.
Qed.

Lemma calls_explain_app {A B} E (o1 : outcome World A) (o2 : outcome World B)
    new1 new2 :
  Forall succeeded new1 -> calls_explain E o2 new2 ->
  calls_explain E o2 (new1 ++ new2).
Proof.
  induction 1 as [|c new1 Hc Hall IH]; intros H2; cbn; [assumption|].
  apply calls_explain_cons; auto.
Qed.

Lemma for_systems_calls E self systems : forall w,
  let o := for_systems E self systems w in
  exists new,
    db_calls (world_of o) = db_calls w ++ new
    /\ calls_explain E o new
    /\ log (world_of o) = log w.
Proof.
  induction systems as [|s more IH]; intros w; cbv zeta.
  - exists []. cbn. rewrite app_nil_r. repeat split. constructor.
  - rewrite for_systems_cons.
    destruct (for_instances_calls E self (sys_id s) (instances s) [] w)
      as (new1 & H1 & H2 & H3).
    destruct (for_instances E self (sys_id s) [] (instances s) w)
      as [[] w1|ex w1|w1]; cbn [world_of] in *.
    + destruct (IH w1) as (new2 & I1 & I2 & I3).
      exists (new1 ++ new2). repeat split.
      * rewrite I1, H1. now rewrite <- app_assoc.
      * eapply (calls_explain_app E (Ok tt w1)); eassumption.
      * congruence.
    + exists new1. auto.
    + exists new1. auto.
Qed.

Lemma check_status_calls E self w :
  let o := check_status E self w in
  exists new,
    db_calls (world_of o) = db_calls w ++ new
    /\ calls_explain E o new
    /\ log (world_of o) = log w.
Proof.
  cbv zeta. rewrite check_status_unfold.
  destruct (env_db_error E (steps w)) as [ex|] eqn:Hq.
  - exists [Query (Some ex)]. cbn. repeat split. right.
    exists [], (Query (Some ex)). repeat split; [constructor|].
    exists (steps w). now split.
  - destruct (for_systems_calls E self (systems_of (store w))
                (tick (with_call (Query None) w))) as (new & H1 & H2 & H3).
    exists (Query None :: new). repeat split.
    + rewrite H1. cbn. now rewrite <- app_assoc.
    + now apply calls_explain_cons.
    + rewrite H3. reflexivity.
Qed.

Lemma run_loop_unfold E self fuel w :
  run_loop E self (S fuel) w
  = if env_stop_set E (steps w) then Ok tt (tick w)
    else match sweep E self (tick w) with
         | Ok _ w2 => run_loop E self fuel w2
         | Raise ex w2 => Raise ex w2
         | OutOfFuel w2 => OutOfFuel w2
         end.
Proof.
  cbn [run_loop]. unfold bind at 1, wait at 1.
  now destruct (env_stop_set E (steps w)).
Qed.

(** C3, as amended.  When a call to the store fails during a status
    check, the check ends there by raising the store's exception: the
    monitor logs nothing, the failed call is its last call to the store
    and the last question it asks (so the instances not yet reached are
    not evaluated), and the exception leaves the loop of [run] as well. *)
Theorem store_failure_ends_status_check E self w c ex :
  let o := check_status E self w in
  c ∈ new_calls w o -> call_failure c = Some ex ->
  o = Raise ex (world_of o)
  /\ new_log w o = []
  /\ last (db_calls (world_of o)) = Some c
  /\ (exists n, steps (world_of o) = S n /\ env_db_error E n = Some ex)
  /\ (forall fuel w0,
        env_stop_set E (steps w0) = false ->
        request_status E self (tick w0) = Ok tt w ->
        run_loop E self (S fuel) w0 = Raise ex (world_of o)).
Proof.
  cbv zeta. intros Hin Hf.
  destruct (check_status_calls E self w) as (new & H1 & H2 & H3).
  unfold new_calls, new_log in *. rewrite H1, drop_app_length in Hin.
  rewrite H3, drop_all.
  assert (Hfail : ~ Forall succeeded new).
  { intros Hall. rewrite Forall_forall in Hall.
    specialize (Hall c Hin). unfold succeeded in Hall. congruence. }
  destruct (check_status E self w) as [a w'|ex' w'|w'] eqn:Ho;
    cbn [world_of calls_explain] in *; [tauto| |tauto].
  destruct H2 as [[Hall _]|(pre & c0 & -> & Hpre & Hf0 & n & Hn & Hdb)]; [tauto|].
  assert (c = c0) as <-.
  { apply elem_of_app in Hin as [Hin|Hin].
    - rewrite Forall_forall in Hpre. specialize (Hpre c Hin).
      unfold succeeded in Hpre. congruence.
    - now apply list_elem_of_singleton in Hin. }
  assert (ex' = ex) as -> by congruence.
  repeat split.
  - rewrite H1, app_assoc. apply last_snoc.
  - eauto.
  - intros fuel w0 Hstop Hreq.
    rewrite run_loop_unfold, Hstop, sweep_unfold, Hreq. now rewrite Ho.
Qed.

Lemma failed_call_is_new :
  failed_call ∈ new_calls two_systems (check_status failing_update default two_systems).
Proof.
  assert (H : new_calls two_systems
                (check_status failing_update default two_systems)
              = [Query None; failed_call]) by (vm_compute; reflexivity).
  rewrite H. apply elem_of_cons. right. now apply list_elem_of_singleton.
Qed.

Lemma store_failure_ends_status_check_witness :
  let o := check_status failing_update default two_systems in
  o = Raise store_down (world_of o)
  /\ new_log two_systems o = []
  /\ last (db_calls (world_of o)) = Some failed_call
  /\ (exists n, steps (world_of o) = S n /\ env_db_error failing_update n = Some store_down)
  /\ (forall fuel w0,
        env_stop_set failing_update (steps w0) = false ->
        request_status failing_update default (tick w0) = Ok tt two_systems ->
        run_loop failing_update default (S fuel) w0 = Raise store_down (world_of o)).
Proof.
  apply (store_failure_ends_status_check failing_update default two_systems
           failed_call store_down).
  - assert (H : new_calls two_systems
                  (check_status failing_update default two_systems)
                = [Query None; failed_call]) by (vm_compute; reflexivity).
    rewrite H. apply elem_of_cons. right. now apply list_elem_of_singleton.
  - reflexivity.
Defined.

Example check_status_failing_update :
  exists w', check_status failing_update default two_systems = Raise store_down w'
    /\ log w' = []
    /\ store w' !! "s1" = Some [inst "a" "RUNNING" (Some (seconds 69))]
    /\ store w' !! "s2" = Some [inst "b" "RUNNING" (Some (seconds 69))].
Proof. eexists. repeat split; reflexivity. Qed.

(** C3, as it is written, fails: the first update of the store fails, the
    status check does not return but raises, nothing is logged, and the
    instance of the other system, RUNNING with a heartbeat 31 s old, is
    never looked at. *)
Lemma store_failure_not_isolated :
  ~ store_failure_isolated failing_update default two_systems.
Proof.
  intros H.
  destruct (H failed_call store_down failed_call_is_new eq_refl) as [Hret _].
  vm_compute in Hret. exact Hret.
Qed.

(** *** Publish failures (C6) *)

(** C6.  When the loop of [run] goes into a turn (the wait ended without
    the stop event) and the broker then fails the publish with an
    exception, [request_status] returns all the same, a warning that
    carries the exception's text is logged, the same turn goes on to the
    status check, and what follows the publish is what follows any
    publish: the status check, then the rest of the loop.  In particular,
    when that status check returns and the monitor is not stopped, the
    next turn is a whole sweep again. *)
Theorem publish_failure_does_not_stop_monitor E self w0 ex :
  env_stop_set E (steps w0) = false ->
  env_queue_error E (S (steps w0)) = Some ex ->
  is_Exception ex = true ->
  let w1 := publish_failed ex (tick w0) in
  request_status E self (tick w0) = Ok tt w1
  /\ log w1 = log w0 ++ [mkLog WARNING
                           ("Unable to publish status request: " ++ str_exn ex)%string]
  /\ sweep E self (tick w0) = check_status E self w1
  /\ (forall fuel,
        run_loop E self (S fuel) w0
        = (check_status E self >>> run_loop E self fuel) w1)
  /\ (forall fuel w2,
        check_status E self w1 = Ok tt w2 ->
        env_stop_set E (steps w2) = false ->
        run_loop E self (S (S fuel)) w0
        = (sweep E self >>> run_loop E self fuel) (tick w2)).
Proof.
  intros Hstop Hq Hex w1.
  assert (Hreq : request_status E self (tick w0) = Ok tt w1)
    by now apply request_status_caught.
  assert (Hturn : forall fuel,
            run_loop E self (S fuel) w0
            = (check_status E self >>> run_loop E self fuel) w1).
  { intros fuel. rewrite run_loop_unfold, Hstop, sweep_unfold, Hreq.
    reflexivity. }
  repeat split; try assumption.
  - now rewrite sweep_unfold, Hreq.
  - intros fuel w2 Hcheck Hstop2.
    rewrite Hturn. unfold bind at 1. rewrite Hcheck.
    rewrite run_loop_unfold, Hstop2. reflexivity.
Qed.

Lemma publish_failure_does_not_stop_monitor_witness :
  let w1 := publish_failed broker_down (tick one_system) in
  request_status failing_publish default (tick one_system) = Ok tt w1
  /\ log w1 = log one_system
              ++ [mkLog WARNING
                    ("Unable to publish status request: " ++ str_exn broker_down)%string]
  /\ sweep failing_publish default (tick one_system)
     = check_status failing_publish default w1
  /\ (forall fuel,
        run_loop failing_publish default (S fuel) one_system
        = (check_status failing_publish default
           >>> run_loop failing_publish default fuel) w1)
  /\ (forall fuel w2,
        check_status failing_publish default w1 = Ok tt w2 ->
        env_stop_set failing_publish (steps w2) = false ->
        run_loop failing_publish default (S (S fuel)) one_system
        = (sweep failing_publish default
           >>> run_loop failing_publish default fuel) (tick w2)).
Proof.
  apply (publish_failure_does_not_stop_monitor failing_publish default
           one_system broker_down).
  - reflexivity.
  - reflexivity.
  - reflexivity.
Defined.

(** Two turns of the loop when the broker refuses the first publish: the
    first turn logs the warning and checks the statuses, the second
    publishes. *)
Example run_loop_failing_publish :
  match run_loop failing_publish default 2 one_system with
  | OutOfFuel w =>
      log w = [mkLog WARNING "Unable to publish status request: connection refused"]
      /\ broker w = [mkPublished (mkRequest "_status" "EPHEMERAL") "admin" "10000"]
      /\ option_map (map status) (store w !! "s1")
         = Some ["UNRESPONSIVE"; "RUNNING"; "STARTING"]
  | _ => False
  end.
Proof. vm_compute. repeat split. Qed.

(** A publish failure that is not an [Exception] is not caught. *)
Lemma request_status_not_caught E self w ex :
  env_queue_error E (steps w) = Some ex -> is_Exception ex = false ->
  request_status E self w = Raise ex (tick w).
Proof.
  intros H Hex. unfold request_status, try_except_Exception, queue_put.
  now rewrite H, Hex.
Qed.

End MonitorFacts.
(** ** The filesystem watcher (C8) *)

Module WatcherFacts.
Import Watcher WatcherSpec WatcherExamples PyFacts.

(** *** The comparison of two listings *)


Lemma path_of_None s i q st :
  path_of s i = None -> s !! q = Some st -> st_ino st <> i.
Proof.
  unfold path_of. intros H Hq Hino.
  apply fmap_None in H. apply list_find_None in H.
  rewrite Forall_forall in H.
  apply (H (q, st)); [|assumption].
  now apply elem_of_map_to_list.
Qed.




Lemma inode_Some s p i :
  inode s p = Some i <-> exists st, s !! p = Some st /\ st_ino st = i.
Proof.
  unfold inode. rewrite fmap_Some. split.
  - intros (st & H & ->). eauto.
  - intros (st & H & <-). eauto.
Qed.

Section Diffing.
Variable match_path : string -> string -> bool.
Variables (p : string) (ref snap : Snapshot) (wt : Watch).
Hypothesis Hpat : patterns wt = [p].
Hypothesis Hign : ignore_directories wt = true.
Hypothesis Hself : match_path p p = true.
Hypothesis Halone : watched_alone match_path p ref snap.
























End Diffing.


(** *** The callbacks and the handler *)

Section Dispatching.
Variable match_path : string -> string -> bool.

Lemma callback_publishes self wt event w :
  watch self = Some wt ->
  match event_type event with
  | Created => on_created self event
  | Modified => on_modified self event
  | Moved => on_moved self event
  | Deleted => on_deleted self event
  end w
  = Ok tt (add_published (option_list (configured wt (event_type event))) w).
Proof.
  intros Hw. unfold on_created, on_modified, on_moved, on_deleted, attr, bind.
  rewrite Hw. unfold ret, configured, publish, add_published.
  destruct (event_type event);
    match goal with |- context [match ?o with Some _ => _ | None => _ end] =>
      destruct o end;
    cbn; rewrite ?app_nil_r; now destruct w.
Qed.

Lemma add_published_nil w : add_published [] w = w.
Proof. unfold add_published. rewrite app_nil_r. now destruct w. Qed.


Lemma dispatch_publishes self wt event w :
  watch self = Some wt ->
  dispatch match_path self event w
  = Ok tt (add_published (to_publish match_path wt [event]) w).
Proof.
  intros Hw. unfold dispatch, to_publish. rewrite Hw. cbn.
  destruct (delivered match_path wt event).
  - rewrite (callback_publishes self wt event w Hw).
    now destruct (configured wt (event_type event)).
  - unfold ret. now rewrite add_published_nil.
Qed.



Section Built.
Variable dirname : string -> string.
Variable scan : string -> exn + Snapshot.

End Built.
End Dispatching.



(** *** The watcher of the examples *)

(** A path that is alone in two listings, by search. *)
Lemma alone_by_search p ref snap :
  isdir ref p = false -> isdir snap p = false ->
  (forall i, inode ref p = Some i \/ inode snap p = Some i ->
     path_of (delete p ref) i = None /\ path_of (delete p snap) i = None) ->
  watched_alone same_path p ref snap.
Proof.
  intros Hr Hs Hsearch. split; [|split; [assumption|split; [assumption|]]].
  - intros q Hne _. unfold same_path. apply String.eqb_neq. congruence.
  - intros q i Hne Hi. destruct (Hsearch i Hi) as [Hn1 Hn2]. split.
    + intros Hq. apply inode_Some in Hq as (st & Hst & Hino).
      apply (path_of_None _ _ q st Hn1); [|assumption].
      rewrite lookup_delete_ne by congruence. assumption.
    + intros Hq. apply inode_Some in Hq as (st & Hst & Hino).
      apply (path_of_None _ _ q st Hn2); [|assumption].
      rewrite lookup_delete_ne by congruence. assumption.
Qed.

Example watched_alone_in_garden :
  watched_alone same_path watched garden (<[watched := same_inode]> garden)
  /\ watched_alone same_path watched garden (<[watched := new_inode]> garden)
  /\ watched_alone same_path watched garden (delete watched garden).
Proof.
  split; [|split];
    (apply (alone_by_search watched); [reflexivity|reflexivity|];
     intros i [Hi|Hi]; vm_compute in Hi; try discriminate Hi;
     injection Hi as <-; split; reflexivity).
Qed.

Example create_publishes_once :
  dispatch same_path a_watcher (occurrence_of Created) watching
  = Ok tt (add_published [created_ev] watching).
Proof. reflexivity. Qed.

Example move_publishes_nothing :
  dispatch same_path a_watcher (occurrence_of Moved) watching
  = Ok tt watching.
Proof. reflexivity. Qed.

(** A poll falls between the deletion and the new file: delete, then
    create. *)
Example recreated_over_two_polls :
  published (world_of (observe same_path a_watcher
                         [Some (delete watched garden);
                          Some (<[watched := same_inode]> garden)] watching))
  = [deleted_ev; created_ev].
Proof. vm_compute. reflexivity. Qed.

(** The file is back by the next poll, under another inode: delete, then
    create. *)
Example recreated_under_new_inode :
  published (world_of (observe same_path a_watcher
                         [Some (<[watched := new_inode]> garden)] watching))
  = [deleted_ev; created_ev].
Proof. vm_compute. reflexivity. Qed.

(** The file is back by the next poll, under its inode: one modify. *)
Example recreated_under_same_inode :
  published (world_of (observe same_path a_watcher
                         [Some (<[watched := same_inode]> garden)] watching))
  = [modified_ev].
Proof. vm_compute. reflexivity. Qed.

(** A rename of the watched file, and a rename of another file onto the
    watched name, both reach [on_moved]. *)
Example renamed_away_and_back :
  diff garden_renamed garden
  = [mkFsEvent Moved "/etc/garden/children.bak" (Some watched) false;
     mkFsEvent Modified "/etc/garden" None true]
  /\ published (world_of (observe same_path a_mover
                            [Some garden_renamed; Some garden] watching))
     = [moved_ev; moved_ev].
Proof. vm_compute. split; reflexivity. Qed.

(** [__init__] raises when the directory of the path cannot be listed. *)
Example init_without_directory c m mv d :
  init (fun _ => "/nowhere") scan_garden (Some "/nowhere/children.yaml")
    c m mv d nothing_published
  = Raise no_such_directory nothing_published.
Proof. reflexivity. Qed.

End WatcherFacts.

(** ** The process runners *)

Module RunnerFacts.
Import Proc RunnerSpec RunnerExamples PyFacts.

(** *** terminate and kill (C4, C10) *)

Lemma process_is_running_None E (w : World Runner.ProcessRunner) :
  Runner.process (self w) = None ->
  Runner.process_is_running E w = Ok false w.
Proof.
  intros H. unfold Runner.process_is_running, bind, get_self. now rewrite H.
Qed.

Lemma process_is_running_Some E (w : World Runner.ProcessRunner) p :
  Runner.process (self w) = Some p ->
  Runner.process_is_running E w
  = Ok (bool_decide (env_returncode E (steps w) = None))
       (noted (SPoll (pid p)) None w).
Proof.
  intros H. unfold Runner.process_is_running, bind, get_self. now rewrite H.
Qed.

(** C10.  On a runner whose process has not been spawned, [terminate] and
    [kill] of [ProcessRunner] and [kill] of [PluginRunner] return at once
    in the world they were called in: no request is made, so no signal is
    sent, nothing is logged and the runner is as it was. *)
Theorem unspawned_terminate_kill_noop E
    (w : World Runner.ProcessRunner) (v : World PluginRunner.PluginRunner) :
  Runner.process (self w) = None ->
  PluginRunner.process (self v) = None ->
  Runner.terminate E w = Ok tt w
  /\ Runner.kill E w = Ok tt w
  /\ PluginRunner.kill E v = Ok tt v.
Proof.
  intros Hw Hv. repeat split.
  - unfold Runner.terminate, bind. now rewrite process_is_running_None.
  - unfold Runner.kill, bind. now rewrite process_is_running_None.
  - unfold PluginRunner.kill, PluginRunner.process_is_running, bind, get_self.
    now rewrite Hv.
Qed.

Lemma unspawned_terminate_kill_noop_witness :
  Runner.terminate running (world_of_runner a_runner)
  = Ok tt (world_of_runner a_runner)
  /\ Runner.kill running (world_of_runner a_runner)
     = Ok tt (world_of_runner a_runner)
  /\ PluginRunner.kill running (world_of_runner a_plugin_runner)
     = Ok tt (world_of_runner a_plugin_runner).
Proof.
  apply (unspawned_terminate_kill_noop running
           (world_of_runner a_runner) (world_of_runner a_plugin_runner)).
  - reflexivity.
  - reflexivity.
Defined.

(** [terminate] on a process that has exited: one poll, nothing else. *)
Lemma terminate_exited E (w : World Runner.ProcessRunner) p rc :
  Runner.process (self w) = Some p ->
  env_returncode E (steps w) = Some rc ->
  Runner.terminate E w = Ok tt (noted (SPoll (pid p)) None w).
Proof.
  intros Hp Hrc. unfold Runner.terminate, bind.
  rewrite (process_is_running_Some E w p Hp), Hrc. reflexivity.
Qed.

(** [kill] on a running process: one poll, the warning, the signal. *)
Lemma kill_running E (w : World Runner.ProcessRunner) p :
  Runner.process (self w) = Some p ->
  env_returncode E (steps w) = None ->
  Runner.kill E w
  = Ok tt (noted (SSignal (pid p) SIGKILL) None
             (with_logged WARNING "About to send SIGKILL"
                (noted (SPoll (pid p)) None w))).
Proof.
  intros Hp Hrc. unfold Runner.kill, bind.
  rewrite (process_is_running_Some E w p Hp), Hrc. cbn.
  unfold Runner.the_process, bind, get_self. cbn. rewrite Hp. reflexivity.
Qed.

(** C4, where the code departs from it.  On a runner whose process is
    still running, [terminate] polls the process, logs that it is about to
    send SIGINT, and then raises [TypeError]: [self.process.pid] is an
    integer and the code calls it.  No signal is sent. *)
Theorem terminate_running_raises E (w : World Runner.ProcessRunner) p :
  Runner.process (self w) = Some p ->
  env_returncode E (steps w) = None ->
  let w' := with_logged DEBUG "About to send SIGINT"
              (noted (SPoll (pid p)) None w) in
  Runner.terminate E w
  = Raise (mkExn TypeError "'int' object is not callable") w'
  /\ signals_of (new_calls w (Runner.terminate E w)) = [].
Proof.
  intros Hp Hrc w'.
  assert (Ht : Runner.terminate E w
               = Raise (mkExn TypeError "'int' object is not callable") w').
  { unfold Runner.terminate, bind.
    rewrite (process_is_running_Some E w p Hp), Hrc. cbn.
    unfold Runner.the_process, bind, get_self. cbn. rewrite Hp. reflexivity. }
  split; [assumption|].
  rewrite Ht. unfold new_calls. cbn. now rewrite drop_app_length.
Qed.

Lemma terminate_running_raises_witness :
  let w := world_of_runner spawned in
  let w' := with_logged DEBUG "About to send SIGINT"
              (noted (SPoll 4242) None w) in
  Runner.terminate running w
  = Raise (mkExn TypeError "'int' object is not callable") w'
  /\ signals_of (new_calls w (Runner.terminate running w)) = [].
Proof.
  apply (terminate_running_raises running (world_of_runner spawned)
           (mkPopen 4242)).
  - reflexivity.
  - reflexivity.
Defined.

(** The sibling method on the same input sends its signal. *)
Example kill_running_sends_SIGKILL :
  signals_of (calls (world_of (Runner.kill running (world_of_runner spawned))))
  = [(4242, SIGKILL)].
Proof. reflexivity. Qed.

(** *** Stream capture (C5) *)

Lemma for_each_line_emits (rec : string -> LogRecord)
    (body : string -> M (World Reader) unit) :
  (forall l w, body l w = Ok tt (emitted (rec l) w)) ->
  forall ls n (w : World Reader),
    it_done (self w) = false ->
    pending (self w) = ls ->
    Forall (fun l => l <> ""%string) ls ->
    (length ls < n)%nat ->
    for_each_line n body w = Ok tt (drained (map rec ls) w).
Proof.
  intros Hbody. induction ls as [|l ls IH]; intros n w Hdone Hpend Hne Hlen.
  - destruct n as [|n]; [cbn in Hlen; lia|].
    cbn [for_each_line]. unfold bind, next, next_line, readline.
    rewrite Hdone, Hpend. cbn. unfold ret, drained. cbn.
    now rewrite app_nil_r, Hpend.
  - destruct n as [|n]; [cbn in Hlen; lia|].
    apply Forall_cons in Hne as [Hl Hne].
    cbn [for_each_line]. unfold bind at 1. unfold next, next_line, readline.
    rewrite Hdone, Hpend.
    destruct (String.eqb_spec l "") as [->|_]; [congruence|].
    unfold bind at 1. rewrite Hbody.
    rewrite IH; [|reflexivity|reflexivity|assumption|cbn in Hlen; lia].
    unfold drained, emitted, emit. cbn.
    rewrite <- app_assoc. cbn. now destruct (rec l).
Qed.

Lemma for_lines_emits (rec : string -> LogRecord)
    (body : string -> M (World Reader) unit) (w : World Reader) :
  (forall l w, body l w = Ok tt (emitted (rec l) w)) ->
  it_done (self w) = false ->
  Forall (fun l => l <> ""%string) (pending (self w)) ->
  for_lines body w = Ok tt (drained (map rec (pending (self w))) w).
Proof.
  intros Hbody Hdone Hne. unfold for_lines.
  apply (for_each_line_emits rec body Hbody); auto.
Qed.


(** C5, where the code departs from it.  When the process has already
    exited by the time the capture thread first polls it, [read_stream]
    returns without reading: whatever lines the process wrote before it
    exited stay in the stream and nothing reaches the logger. *)
Theorem read_stream_after_exit_reads_nothing E p fuel (w : World Reader) rc :
  env_returncode E (steps w) = Some rc ->
  exists w',
    Runner.read_stream E p (S fuel) w = Ok tt w'
    /\ sink (self w') = sink (self w)
    /\ pending (self w') = pending (self w).
Proof.
  intros Hrc. eexists. split.
  - unfold Runner.read_stream, bind, start_iter. cbn [Runner.read_stream_loop].
    unfold bind, poll, ask. cbn. rewrite Hrc. reflexivity.
  - split; reflexivity.
Qed.

Lemma read_stream_after_exit_reads_nothing_witness :
  exists w',
    Runner.read_stream exited (mkPopen 4242) 1 (world_of_runner two_lines)
    = Ok tt w'
    /\ sink (self w') = []
    /\ pending (self w') = pending two_lines.
Proof.
  apply (read_stream_after_exit_reads_nothing exited (mkPopen 4242) 0
           (world_of_runner two_lines) 0).
  reflexivity.
Defined.

(** When the process is still running at the first poll and has exited at
    the second, every line is logged once, in the order written. *)
Lemma read_stream_while_running_logs_all E p fuel (w : World Reader) rc :
  env_returncode E (steps w) = None ->
  env_returncode E (S (steps w)) = Some rc ->
  Forall (fun l => l <> ""%string) (pending (self w)) ->
  exists w',
    Runner.read_stream E p (S (S fuel)) w = Ok tt w'
    /\ sink (self w') = sink (self w) ++ info_records (pending (self w))
    /\ pending (self w') = [].
Proof.
  intros Hrun Hexit Hne. eexists. split.
  - unfold Runner.read_stream, bind at 1, start_iter.
    cbn [Runner.read_stream_loop].
    unfold bind at 1, poll at 1, ask at 1. cbn [steps noted]. rewrite Hrun.
    unfold bind at 1.
    rewrite (for_lines_emits (fun l => mkLog INFO (rstrip l))); cbn; auto.
    unfold bind, poll, ask. cbn. rewrite Hexit. reflexivity.
  - split; reflexivity.
Qed.

Example read_stream_two_lines :
  exists w',
    Runner.read_stream exits_after_first_poll (mkPopen 4242) 2
      (world_of_runner two_lines) = Ok tt w'
    /\ sink (self w') = [mkLog INFO "starting"; mkLog INFO "ready"].
Proof. eexists. split; reflexivity. Qed.

Lemma level_for_known other line d levels (w : World Reader) :
  known_levels levels ->
  PluginRunner.level_for other line d levels w
  = Ok (PluginRunner.AttrInt (level_of line d levels)) w.
Proof.
  induction 1 as [|l levels [n Hn] Hall IH]; cbn; [reflexivity|].
  destruct (contains l line); [|assumption].
  unfold PluginRunner.getattr_logging. now rewrite Hn.
Qed.

Lemma log_line_known other r d l (w : World Reader) :
  known_levels (PluginRunner.log_levels r) ->
  PluginRunner.log_line other r d l w
  = Ok tt (emitted (mkLog (level_of (rstrip l) d (PluginRunner.log_levels r))
                      (rstrip l)) w).
Proof.
  intros Hlv. unfold PluginRunner.log_line, bind.
  rewrite level_for_known by assumption. reflexivity.
Qed.

(** The sibling reader, [PluginRunner._check_io], reads before it polls:
    every line is handed to the logger once, in the order written, also
    when the process has already exited. *)
Lemma check_io_logs_all E other r p d fuel (w : World Reader) rc :
  PluginRunner.process r = Some p ->
  known_levels (PluginRunner.log_levels r) ->
  env_returncode E (steps w) = Some rc ->
  Forall (fun l => l <> ""%string) (pending (self w)) ->
  exists w',
    PluginRunner._check_io E other r d (S fuel) w = Ok tt w'
    /\ sink (self w')
       = sink (self w)
         ++ level_records d (PluginRunner.log_levels r) (pending (self w))
    /\ pending (self w') = [].
Proof.
  intros Hp Hlv Hrc Hne. eexists. split.
  - cbn [PluginRunner._check_io]. unfold bind at 1, start_iter. unfold bind at 1.
    rewrite (for_lines_emits
               (fun l => mkLog (level_of (rstrip l) d (PluginRunner.log_levels r))
                           (rstrip l))); cbn; auto.
    + unfold PluginRunner.the_process. rewrite Hp.
      unfold bind, ret, poll, ask. cbn. rewrite Hrc. reflexivity.
    + intros l w0. now apply log_line_known.
  - split; reflexivity.
Qed.

End RunnerFacts.

(** *** Failures while spawning or supervising (C7) *)

Module RunFacts.
Import Proc RunnerSpec RunnerExamples PyFacts.

Ltac run_step E Hfail :=
  cbn;
  match goal with
  | H : is_Exception ?ex = true |- context [is_Exception ?ex] => rewrite H
  | |- context [env_fail E ?n] =>
      let H := fresh "Hf" in
      let ex := fresh "ex" in
      destruct (env_fail E n) as [ex|] eqn:H;
      [ pose proof (Hfail _ _ H) | ]
  | |- context [env_alive E ?n] => destruct (env_alive E n)
  | |- context [env_stop_set E ?n] => destruct (env_stop_set E n)
  | |- context [String.eqb ?a ""] => destruct (String.eqb a "")
  end.

Ltac run_done :=
  cbn; eexists; split; [reflexivity|]; split; [reflexivity|];
  eexists; split; [cbn; rewrite <- ?app_assoc; reflexivity|];
  let c := fresh "c" in
  let ex' := fresh "ex'" in
  let Hin := fresh "Hin" in
  let Hc := fresh "Hc" in
  intros c ex' Hin Hc; cbn in Hin;
  repeat (apply elem_of_cons in Hin as [->|Hin]);
  try (now apply elem_of_nil in Hin);
  cbn in Hc; try discriminate Hc;
  injection Hc as <-; cbn; rewrite ?app_assoc; apply last_snoc.

Lemma ProcessRunner_run_spec E repr (w : World Runner.ProcessRunner) :
  failures_are_Exceptions E ->
  exists w',
    Runner.run E repr w = Ok tt w'
    /\ flags (self w') = flags (self w)
    /\ exists new,
         calls w' = calls w ++ new
         /\ forall c ex, c ∈ new -> failure c = Some ex ->
              last (log w')
              = Some (mkLog ERROR ("Plugin " ++ Runner.str (self w)
                                   ++ " died: " ++ str_exn ex)%string).
Proof.
  destruct w as [[p rs st dd rid iid args cwd env nm cap] cs lg n]. intros Hfail.
  unfold Runner.run, Runner.run_body, with_context, Runner.StreamReader_enter,
    Runner.StreamReader_exit, Runner.join_if_alive, Runner.the_process,
    resolve, subprocess_Popen, Popen_wait, try_except_Exception, bind,
    request, ask, get_self, set_self, logger_log, ret, raise.
  destruct cap; repeat run_step E Hfail; run_done.
Qed.

Lemma spin_spec E fuel : forall (v : World PluginRunner.PluginRunner) p,
  PluginRunner.process (self v) = Some p ->
  exists v' new,
    (PluginRunner.spin E fuel v = Ok tt v'
     \/ PluginRunner.spin E fuel v = OutOfFuel v')
    /\ self v' = self v /\ log v' = log v
    /\ calls v' = calls v ++ new /\ Forall succeeded new.
Proof.
  induction fuel as [|fuel IH]; intros v p Hp.
  - exists v, []. cbn. rewrite app_nil_r. repeat split; auto.
  - cbn [PluginRunner.spin].
    unfold bind, get_self, PluginRunner.the_process, poll, ask. rewrite Hp. cbn.
    destruct (env_returncode E (steps v)) as [rc|].
    + exists (noted (SPoll (pid p)) None v), [mkCall (SPoll (pid p)) None].
      cbn. repeat split; auto. repeat constructor.
    + destruct (IH (noted SSleep None (noted (SPoll (pid p)) None v)) p Hp)
        as (v' & new & Hs & H1 & H2 & H3 & H4).
      exists v', (mkCall (SPoll (pid p)) None :: mkCall SSleep None :: new).
      repeat split; auto.
      * rewrite H3. cbn. now rewrite <- !app_assoc.
      * repeat constructor; auto.
Qed.

Ltac in_new_calls Hin :=
  cbn in Hin; repeat (apply elem_of_cons in Hin as [->|Hin]);
  try (now apply elem_of_nil in Hin).

Lemma PluginRunner_run_spec E repr fuel (v : World PluginRunner.PluginRunner) :
  failures_are_Exceptions E ->
  exists new,
    match PluginRunner.run E repr fuel v with
    | Ok _ v' =>
        calls v' = calls v ++ new
        /\ forall c ex, c ∈ new -> failure c = Some ex ->
             exists l,
               log v' = l ++ [mkLog ERROR ("Plugin " ++ PluginRunner.unique_name (self v)
                                           ++ " died")%string;
                              mkLog ERROR (str_exn ex)]
    | OutOfFuel v' => calls v' = calls v ++ new /\ Forall succeeded new
    | Raise _ _ => False
    end.
Proof.
  destruct v as [[un args cwd env p lv] cs lg n]. intros Hfail.
  unfold PluginRunner.run, PluginRunner.run_body, resolve, subprocess_Popen,
    try_except_Exception, bind, request, get_self, set_self,
    logger_log, ret, raise.
  run_step E Hfail; [|run_step E Hfail; [|run_step E Hfail; [|run_step E Hfail]]].
  1-4: (try run_step E Hfail; cbn; eexists; split;
        [rewrite <- ?app_assoc; reflexivity|];
        intros c ex' Hin Hc; in_new_calls Hin;
        cbn in Hc; try discriminate Hc; injection Hc as <-;
        eexists; rewrite <- app_assoc; reflexivity).
  cbn.
  match goal with
  | |- context [PluginRunner.spin E fuel ?W] =>
      destruct (spin_spec E fuel W (mkPopen (env_pid E (S n))) eq_refl)
        as (v' & new & [Hs|Hs] & H1 & H2 & H3 & H4); rewrite Hs
  end.
  - cbn in H1, H2, H3.
    unfold PluginRunner.the_process, poll, ask. rewrite H1. cbn.
    match goal with
    | |- context [env_stop_set E ?k] => destruct (env_stop_set E k)
    end; cbn; rewrite H3;
      (eexists; split; [rewrite <- ?app_assoc; reflexivity|];
       intros c ex' Hin Hc; in_new_calls Hin; try discriminate Hc;
       apply elem_of_app in Hin as [Hin|Hin];
       [rewrite Forall_forall in H4; specialize (H4 c Hin);
        unfold succeeded in H4; congruence
       |in_new_calls Hin; discriminate Hc]).
  - cbn in H3. rewrite H3. eexists. split.
    + rewrite <- ?app_assoc. reflexivity.
    + repeat constructor. assumption.
Qed.

Lemma new_calls_app {Self A} (w : World Self) (o : outcome (World Self) A) new :
  calls (world_of o) = calls w ++ new -> new_calls w o = new.
Proof. intros H. unfold new_calls. rewrite H. apply drop_app_length. Qed.

(** *** What [run] changes of the runner *)

Ltac self_step E :=
  cbn;
  match goal with
  | |- context [env_fail E ?n] => destruct (env_fail E n)
  | |- context [is_Exception ?ex] => destruct (is_Exception ex)
  | |- context [env_alive E ?n] => destruct (env_alive E n)
  | |- context [env_stop_set E ?n] => destruct (env_stop_set E n)
  | |- context [String.eqb ?a ""] => destruct (String.eqb a "")
  end.

Ltac self_done :=
  cbn; first [left; reflexivity | right; eexists; reflexivity].

(** However [ProcessRunner.run] ends, the runner is as it was but for
    [self.process]. *)
Lemma ProcessRunner_run_self E repr (w : World Runner.ProcessRunner) :
  only_process_set (self w) (self (world_of (Runner.run E repr w))).
Proof.
  destruct w as [[p rs st dd rid iid args cwd env nm cap] cs lg n].
  unfold Runner.run, Runner.run_body, with_context, Runner.StreamReader_enter,
    Runner.StreamReader_exit, Runner.join_if_alive, Runner.the_process,
    resolve, subprocess_Popen, Popen_wait, try_except_Exception, bind,
    request, ask, get_self, set_self, logger_log, ret, raise.
  destruct cap; repeat self_step E; self_done.
Qed.

Lemma spin_self E fuel : forall (v : World PluginRunner.PluginRunner),
  self (world_of (PluginRunner.spin E fuel v)) = self v.
Proof.
  induction fuel as [|fuel IH]; intros v; [reflexivity|].
  cbn [PluginRunner.spin].
  unfold bind, get_self, PluginRunner.the_process, poll, ask, raise, ret.
  destruct (PluginRunner.process (self v)) as [p|]; [|reflexivity]. cbn.
  destruct (env_returncode E (steps v)); [reflexivity|].
  now rewrite IH.
Qed.

(** The same of [PluginRunner.run]. *)
Lemma PluginRunner_run_self E repr fuel (v : World PluginRunner.PluginRunner) :
  plugin_only_process_set (self v)
    (self (world_of (PluginRunner.run E repr fuel v))).
Proof.
  destruct v as [[un args cwd env p lv] cs lg n].
  unfold PluginRunner.run, PluginRunner.run_body, resolve, subprocess_Popen,
    try_except_Exception, bind, request, get_self, set_self,
    logger_log, ret, raise.
  self_step E; [self_step E; self_done|].
  self_step E; [self_step E; self_done|].
  self_step E; [self_step E; self_done|].
  self_step E; [self_step E; self_done|].
  cbn.
  match goal with
  | |- context [PluginRunner.spin E fuel ?W] =>
      pose proof (spin_self E fuel W) as Hs;
      destruct (PluginRunner.spin E fuel W) as [[] v'|ex v'|v']
  end; cbn in Hs.
  - unfold PluginRunner.the_process, poll, ask. rewrite Hs. cbn.
    destruct (env_stop_set E _); cbn; rewrite Hs; right; eexists; reflexivity.
  - destruct (is_Exception ex); cbn; rewrite Hs; right; eexists; reflexivity.
  - cbn. rewrite Hs. right; eexists; reflexivity.
Qed.

(** C7, as it is written, fails: [run] never marks the runner.  When the
    spawn fails on the runner of the examples, [run] catches the error,
    logs it and returns, and the runner is not dead afterwards: nothing
    in [run] sets [dead] (nor [stopped]). *)
Lemma run_failure_leaves_dead_unset :
  ~ failure_leaves_runner_dead spawn_fails repr_args (world_of_runner a_runner).
Proof.
  intros H.
  destruct (H (mkCall (SPopen ["python"; "main.py"] "/plugins/echo-1.0" true)
                 (Some no_such_file)) no_such_file) as [_ Hdead].
  - vm_compute. right. left.
  - reflexivity.
  - vm_compute in Hdead. discriminate Hdead.
Qed.

(** C7, as amended.  When every failure the surroundings produce derives
    from [Exception]: [ProcessRunner.run] always returns; when a request
    it made failed (resolving the directory, spawning, opening a log
    file, starting a reader thread, waiting), the last record it logged
    is the error "Plugin <runner> died: <exception>"; and it does not
    mark the runner: the restart, stopped and dead flags are as they
    were, and nothing of the runner has changed but [self.process].
    [PluginRunner.run] never raises; when a request it made failed it
    returns, the last two records it logged being the errors "Plugin
    <name> died" and the text of the exception; and however it ends
    nothing of the runner has changed but [self.process]. *)
Theorem run_contains_failures E repr :
  failures_are_Exceptions E ->
  (forall w : World Runner.ProcessRunner,
      exists w',
        Runner.run E repr w = Ok tt w'
        /\ flags (self w') = flags (self w)
        /\ only_process_set (self w) (self w')
        /\ forall c ex,
             c ∈ new_calls w (Runner.run E repr w) -> failure c = Some ex ->
             last (log w')
             = Some (mkLog ERROR ("Plugin " ++ Runner.str (self w)
                                  ++ " died: " ++ str_exn ex)%string))
  /\ (forall fuel (v : World PluginRunner.PluginRunner),
        (forall ex v', PluginRunner.run E repr fuel v <> Raise ex v')
        /\ plugin_only_process_set (self v)
             (self (world_of (PluginRunner.run E repr fuel v)))
        /\ forall c ex,
             c ∈ new_calls v (PluginRunner.run E repr fuel v) ->
             failure c = Some ex ->
             exists v' l,
               PluginRunner.run E repr fuel v = Ok tt v'
               /\ log v'
                  = l ++ [mkLog ERROR ("Plugin " ++ PluginRunner.unique_name (self v)
                                       ++ " died")%string;
                          mkLog ERROR (str_exn ex)]).
Proof.
  intros Hfail. split.
  - intros w.
    destruct (ProcessRunner_run_spec E repr w Hfail)
      as (w' & Hrun & Hflags & new & Hcalls & Hlog).
    exists w'. repeat split; try assumption.
    + pose proof (ProcessRunner_run_self E repr w) as Hself.
      now rewrite Hrun in Hself.
    + intros c ex Hin Hc. apply (Hlog c ex); [|assumption].
      rewrite (new_calls_app w (Runner.run E repr w) new) in Hin; [assumption|].
      now rewrite Hrun.
  - intros fuel v.
    destruct (PluginRunner_run_spec E repr fuel v Hfail) as (new & Hspec).
    split; [|split; [apply PluginRunner_run_self|]].
    + intros ex v' Hr. now rewrite Hr in Hspec.
    + destruct (PluginRunner.run E repr fuel v) as [[] v'|ex v'|v'] eqn:Hrun;
        [| tauto |].
      * destruct Hspec as [Hcalls Hlog].
        intros c ex Hin Hc.
        rewrite (new_calls_app v (Ok tt v') new Hcalls) in Hin.
        destruct (Hlog c ex Hin Hc) as (l & Hl). eauto.
      * destruct Hspec as [Hcalls Hall].
        intros c ex Hin Hc.
        rewrite (new_calls_app v (OutOfFuel v') new Hcalls) in Hin.
        rewrite Forall_forall in Hall. specialize (Hall c Hin).
        unfold succeeded in Hall. congruence.
Qed.

Lemma run_contains_failures_witness :
  (forall w : World Runner.ProcessRunner,
      exists w',
        Runner.run spawn_fails repr_args w = Ok tt w'
        /\ flags (self w') = flags (self w)
        /\ only_process_set (self w) (self w')
        /\ forall c ex,
             c ∈ new_calls w (Runner.run spawn_fails repr_args w) ->
             failure c = Some ex ->
             last (log w')
             = Some (mkLog ERROR ("Plugin " ++ Runner.str (self w)
                                  ++ " died: " ++ str_exn ex)%string))
  /\ (forall fuel (v : World PluginRunner.PluginRunner),
        (forall ex v', PluginRunner.run spawn_fails repr_args fuel v <> Raise ex v')
        /\ plugin_only_process_set (self v)
             (self (world_of (PluginRunner.run spawn_fails repr_args fuel v)))
        /\ forall c ex,
             c ∈ new_calls v (PluginRunner.run spawn_fails repr_args fuel v) ->
             failure c = Some ex ->
             exists v' l,
               PluginRunner.run spawn_fails repr_args fuel v = Ok tt v'
               /\ log v'
                  = l ++ [mkLog ERROR ("Plugin " ++ PluginRunner.unique_name (self v)
                                       ++ " died")%string;
                          mkLog ERROR (str_exn ex)]).
Proof.
  apply (run_contains_failures spawn_fails repr_args).
  intros n ex. cbn. destruct (Nat.eqb n 1); intros H.
  - injection H as <-. reflexivity.
  - discriminate H.
Defined.

(** A spawn that fails, on the runner of the examples. *)
Example run_spawn_fails :
  match Runner.run spawn_fails repr_args (world_of_runner a_runner) with
  | Ok _ w' =>
      log w' = [mkLog DEBUG "Starting process with args [python, main.py]";
                mkLog ERROR "Plugin echo-1.0.r1 died: No such file or directory"]
      /\ Runner.process (self w') = None
      /\ Runner.dead (self w') = false
  | _ => False
  end.
Proof. vm_compute. repeat split. Qed.

End RunFacts.

(** ** Stream capture, for every schedule *)

Module CaptureFacts.
Import Proc RunnerSpec RunnerExamples ExtraExamples PyFacts RunnerFacts.









End CaptureFacts.

(** ** The runners' other methods *)

Module RunnerMore.
Import Proc RunnerSpec RunnerExamples ExtraExamples PyFacts RunnerFacts RunFacts.

(** X3.  [ProcessRunner.kill] on a spawned process returns after exactly
    one poll of the process.  When the poll found the process running, the
    one other request it makes is SIGKILL for that process, after the
    poll, and the one record it logs is the warning "About to send
    SIGKILL"; when the poll found the process exited, it makes no other
    request and logs nothing.  It never waits and leaves the runner as it
    was. *)
Theorem kill_signals_when_running E (w : World Runner.ProcessRunner) p :
  Runner.process (self w) = Some p ->
  exists w',
    Runner.kill E w = Ok tt w'
    /\ self w' = self w
    /\ new_calls w (Runner.kill E w)
       = mkCall (SPoll (pid p)) None
         :: match env_returncode E (steps w) with
            | None => [mkCall (SSignal (pid p) SIGKILL) None]
            | Some _ => []
            end
    /\ log w'
       = log w ++ match env_returncode E (steps w) with
                  | None => [mkLog WARNING "About to send SIGKILL"]
                  | Some _ => []
                  end.
Proof.
  intros Hp. destruct (env_returncode E (steps w)) as [rc|] eqn:Hrc.
  - assert (Hk : Runner.kill E w = Ok tt (noted (SPoll (pid p)) None w)).
    { unfold Runner.kill, bind.
      rewrite (process_is_running_Some E w p Hp), Hrc. reflexivity. }
    rewrite Hk. eexists. split; [reflexivity|].
    rewrite (new_calls_app w _ [mkCall (SPoll (pid p)) None]) by reflexivity.
    cbn. rewrite app_nil_r. auto.
  - rewrite (kill_running E w p Hp Hrc).
    eexists. split; [reflexivity|].
    rewrite (new_calls_app w _ [mkCall (SPoll (pid p)) None;
                                mkCall (SSignal (pid p) SIGKILL) None])
      by (cbn; now rewrite <- app_assoc).
    cbn. auto.
Qed.

Lemma kill_signals_when_running_witness :
  exists w',
    Runner.kill running (world_of_runner spawned) = Ok tt w'
    /\ self w' = spawned
    /\ new_calls (world_of_runner spawned)
         (Runner.kill running (world_of_runner spawned))
       = [mkCall (SPoll 4242) None; mkCall (SSignal 4242 SIGKILL) None]
    /\ log w' = [mkLog WARNING "About to send SIGKILL"].
Proof.
  apply (kill_signals_when_running running (world_of_runner spawned)
           (mkPopen 4242)).
  reflexivity.
Defined.

(** X4.  [PluginRunner.kill] on a spawned process returns after exactly one
    poll of the process.  When the poll found the process running, the one
    other request it makes is SIGKILL for that process, after the poll,
    and it logs the two warnings that name the plugin, "About to kill
    plugin" first; when the poll found the process exited, it makes no
    other request and logs nothing.  The runner is left as it was. *)
Theorem plugin_kill_signals_when_running E
    (v : World PluginRunner.PluginRunner) p :
  PluginRunner.process (self v) = Some p ->
  exists v',
    PluginRunner.kill E v = Ok tt v'
    /\ self v' = self v
    /\ new_calls v (PluginRunner.kill E v)
       = mkCall (SPoll (pid p)) None
         :: match env_returncode E (steps v) with
            | None => [mkCall (SSignal (pid p) SIGKILL) None]
            | Some _ => []
            end
    /\ log v'
       = log v
         ++ match env_returncode E (steps v) with
            | None =>
                [mkLog WARNING ("About to kill plugin "
                                ++ PluginRunner.unique_name (self v))%string;
                 mkLog WARNING ("Plugin " ++ PluginRunner.unique_name (self v)
                                ++ " has been killed")%string]
            | Some _ => []
            end.
Proof.
  intros Hp. destruct (env_returncode E (steps v)) as [rc|] eqn:Hrc.
  - assert (Hk : PluginRunner.kill E v = Ok tt (noted (SPoll (pid p)) None v)).
    { unfold PluginRunner.kill, PluginRunner.process_is_running, bind,
        get_self, poll, ask. rewrite Hp. cbn. rewrite Hrc. reflexivity. }
    rewrite Hk. eexists. split; [reflexivity|].
    rewrite (new_calls_app v _ [mkCall (SPoll (pid p)) None]) by reflexivity.
    cbn. rewrite app_nil_r. auto.
  - assert (Hk : PluginRunner.kill E v
                 = Ok tt (with_logged WARNING
                            ("Plugin " ++ PluginRunner.unique_name (self v)
                             ++ " has been killed")%string
                            (noted (SSignal (pid p) SIGKILL) None
                               (with_logged WARNING
                                  ("About to kill plugin "
                                   ++ PluginRunner.unique_name (self v))%string
                                  (noted (SPoll (pid p)) None v))))).
    { unfold PluginRunner.kill, PluginRunner.process_is_running, bind,
        get_self, poll, ask. rewrite Hp. cbn. rewrite Hrc. cbn.
      unfold PluginRunner.the_process. rewrite Hp. reflexivity. }
    rewrite Hk. eexists. split; [reflexivity|].
    rewrite (new_calls_app v _ [mkCall (SPoll (pid p)) None;
                                mkCall (SSignal (pid p) SIGKILL) None])
      by (cbn; now rewrite <- app_assoc).
    cbn. rewrite <- app_assoc. auto.
Qed.

Lemma plugin_kill_signals_when_running_witness :
  exists v',
    PluginRunner.kill running (world_of_runner spawned_plugin) = Ok tt v'
    /\ self v' = spawned_plugin
    /\ new_calls (world_of_runner spawned_plugin)
         (PluginRunner.kill running (world_of_runner spawned_plugin))
       = [mkCall (SPoll 4242) None; mkCall (SSignal 4242 SIGKILL) None]
    /\ log v'
       = [mkLog WARNING "About to kill plugin echo[default]-1.0";
          mkLog WARNING "Plugin echo[default]-1.0 has been killed"].
Proof.
  apply (plugin_kill_signals_when_running running
           (world_of_runner spawned_plugin) (mkPopen 4242)).
  reflexivity.
Defined.

(** X5.  [terminate] on a process that has exited: one poll and nothing more;
    no signal, no log record, no wait, and the runner is as it was. *)
Theorem terminate_after_exit_is_noop E (w : World Runner.ProcessRunner) p rc :
  Runner.process (self w) = Some p ->
  env_returncode E (steps w) = Some rc ->
  exists w',
    Runner.terminate E w = Ok tt w'
    /\ self w' = self w /\ log w' = log w
    /\ new_calls w (Runner.terminate E w) = [mkCall (SPoll (pid p)) None].
Proof.
  intros Hp Hrc. rewrite (terminate_exited E w p rc Hp Hrc).
  eexists. split; [reflexivity|].
  rewrite (new_calls_app w _ [mkCall (SPoll (pid p)) None]) by reflexivity.
  auto.
Qed.

Lemma terminate_after_exit_is_noop_witness :
  exists w',
    Runner.terminate exited (world_of_runner spawned) = Ok tt w'
    /\ self w' = spawned /\ log w' = []
    /\ new_calls (world_of_runner spawned)
         (Runner.terminate exited (world_of_runner spawned))
       = [mkCall (SPoll 4242) None].
Proof.
  apply (terminate_after_exit_is_noop exited (world_of_runner spawned)
           (mkPopen 4242) 0).
  - reflexivity.
  - reflexivity.
Defined.

(** [contains] is the substring test. *)
Lemma prefix_app sub : forall s,
  String.prefix sub s = true <-> exists post, s = (sub ++ post)%string.
Proof.
  induction sub as [|c sub IH]; intros s; cbn.
  - split; [intros _; now exists s|intros _; now destruct s].
  - destruct s as [|c' s]; cbn.
    + split; [discriminate|]. intros (post & H). discriminate H.
    + match goal with
      | |- context [match ?d with left _ => _ | right _ => _ end] =>
          destruct d as [Heq|Hne]
      end.
      * subst c'. rewrite IH. split; intros (post & H); exists post.
        -- now rewrite H.
        -- now injection H.
      * split; [discriminate|]. intros (post & H). injection H. congruence.
Qed.

Lemma contains_spec sub : forall s,
  contains sub s = true
  <-> exists pre post, s = (pre ++ sub ++ post)%string.
Proof.
  induction s as [|c s IH].
  - cbn [contains]. rewrite orb_false_r, prefix_app. split.
    + intros (post & H). exists ""%string, post. exact H.
    + intros ([|c pre] & post & H); [eauto|discriminate H].
  - cbn [contains]. rewrite orb_true_iff, prefix_app, IH. split.
    + intros [(post & H)|(pre & post & H)].
      * exists ""%string, post. exact H.
      * exists (String c pre), post. cbn. now rewrite H.
    + intros ([|c' pre] & post & H).
      * left. eauto.
      * right. injection H as -> H. eauto.
Qed.

Lemma level_for_none other line d levels (w : World Reader) :
  (forall l, l ∈ levels -> contains l line = false) ->
  PluginRunner.level_for other line d levels w = Ok (PluginRunner.AttrInt d) w.
Proof.
  induction levels as [|l levels IH]; intros Hnone; [reflexivity|].
  cbn. rewrite (Hnone l) by left. apply IH.
  intros l' Hl'. apply Hnone. now right.
Qed.

Lemma level_for_first other line d before x after (w : World Reader) :
  (forall l, l ∈ before -> contains l line = false) ->
  contains x line = true ->
  PluginRunner.level_for other line d (before ++ x :: after) w
  = PluginRunner.getattr_logging other x w.
Proof.
  induction before as [|l before IH]; intros Hnone Hx.
  - cbn. now rewrite Hx.
  - cbn. rewrite (Hnone l) by left. apply IH; [|assumption].
    intros l' Hl'. apply Hnone. now right.
Qed.

(** X6.  What [_check_io] does with one line is decided by the first name
    of [log_levels], in list order, that occurs in the stripped line.
    When none occurs, the line is logged at the default level.  Otherwise
    the name is looked up in [logging]: when it is bound to an integer (a
    level name, say) the line is logged at that level; when it is bound
    to something else, [Logger.log] raises [TypeError] and the line is
    not logged; when [logging] has no such name, the lookup raises
    [AttributeError] and the line is not logged. *)
Theorem level_for_first_match other r d raw_line (w : World Reader) :
  let line := rstrip raw_line in
  ((forall l, l ∈ PluginRunner.log_levels r -> contains l line = false) ->
   PluginRunner.log_line other r d raw_line w
   = Ok tt (emitted (mkLog d line) w))
  /\ (forall before x after,
        PluginRunner.log_levels r = before ++ x :: after ->
        (forall l, l ∈ before -> contains l line = false) ->
        contains x line = true ->
        PluginRunner.log_line other r d raw_line w
        = match PluginRunner.logging_level x, other x with
          | Some n, _ | None, Some (PluginRunner.AttrInt n) =>
              Ok tt (emitted (mkLog n line) w)
          | None, Some PluginRunner.AttrObject =>
              Raise (mkExn TypeError "level must be an integer") w
          | None, None =>
              Raise (mkExn AttributeError
                       ("module 'logging' has no attribute '" ++ x ++ "'")%string) w
          end).
Proof.
  cbv zeta. split.
  - intros Hnone. unfold PluginRunner.log_line, bind.
    now rewrite level_for_none.
  - intros before x after Hlv Hnone Hx.
    unfold PluginRunner.log_line, bind.
    rewrite Hlv, (level_for_first other _ d before x after w Hnone Hx).
    unfold PluginRunner.getattr_logging.
    destruct (PluginRunner.logging_level x) as [n|]; [reflexivity|].
    destruct (other x) as [[n|]|]; reflexivity.
Qed.

Lemma level_for_first_match_witness :
  PluginRunner.log_line logging_names spawned_plugin INFO
    "starting up" (world_of_runner two_lines)
  = Ok tt (emitted (mkLog INFO "starting up") (world_of_runner two_lines))
  /\ PluginRunner.log_line logging_names spawned_plugin INFO
       "2020-01-01 ERROR: INFO is not shown" (world_of_runner two_lines)
     = Ok tt (emitted (mkLog ERROR "2020-01-01 ERROR: INFO is not shown")
                (world_of_runner two_lines))
  /\ PluginRunner.log_line logging_names talkative_plugin INFO
       "no info yet" (world_of_runner two_lines)
     = Raise (mkExn TypeError "level must be an integer")
         (world_of_runner two_lines)
  /\ PluginRunner.log_line logging_names talkative_plugin INFO
       "a TRACE line" (world_of_runner two_lines)
     = Raise (mkExn AttributeError "module 'logging' has no attribute 'TRACE'")
         (world_of_runner two_lines).
Proof.
  split; [|split; [|split]].
  - apply (proj1 (level_for_first_match logging_names spawned_plugin INFO
                    "starting up" (world_of_runner two_lines))).
    intros l Hl. cbn in Hl.
    repeat (apply elem_of_cons in Hl as [->|Hl]; [reflexivity|]).
    now apply elem_of_nil in Hl.
  - apply (proj2 (level_for_first_match logging_names spawned_plugin INFO
                    "2020-01-01 ERROR: INFO is not shown"
                    (world_of_runner two_lines))
             ["CRITICAL"; "FATAL"] "ERROR"
             ["WARN"; "WARNING"; "INFO"; "DEBUG"; "NOTSET"]).
    + reflexivity.
    + intros l Hl.
      repeat (apply elem_of_cons in Hl as [->|Hl]; [reflexivity|]).
      now apply elem_of_nil in Hl.
    + reflexivity.
  - apply (proj2 (level_for_first_match logging_names talkative_plugin INFO
                    "no info yet" (world_of_runner two_lines))
             ["TRACE"] "info" ["ERROR"]).
    + reflexivity.
    + intros l Hl.
      repeat (apply elem_of_cons in Hl as [->|Hl]; [reflexivity|]).
      now apply elem_of_nil in Hl.
    + reflexivity.
  - apply (proj2 (level_for_first_match logging_names talkative_plugin INFO
                    "a TRACE line" (world_of_runner two_lines))
             [] "TRACE" ["info"; "ERROR"]).
    + reflexivity.
    + intros l Hl. now apply elem_of_nil in Hl.
    + reflexivity.
Defined.

(** X7.  With capture disabled the [StreamReader] scope does nothing: the body
    runs as if it stood alone, whatever it is and however it ends. *)
Theorem StreamReader_disabled_is_noop {A} E (r : Runner.ProcessRunner)
    (body : M (World Runner.ProcessRunner) A) w :
  Runner.capture_streams r = false ->
  with_context (Runner.StreamReader_enter E r) (Runner.StreamReader_exit E r)
    body w
  = body w.
Proof.
  intros Hc.
  unfold with_context, Runner.StreamReader_enter, Runner.StreamReader_exit,
    Runner.join_if_alive, bind, ret, raise.
  rewrite Hc. cbn. now destruct (body w).
Qed.

Lemma StreamReader_disabled_is_noop_witness :
  with_context
    (Runner.StreamReader_enter running (Runner.init "r1" [] plugin_dir ∅ false))
    (Runner.StreamReader_exit running (Runner.init "r1" [] plugin_dir ∅ false))
    (Popen_wait running (mkPopen 4242)) (world_of_runner a_runner)
  = Popen_wait running (mkPopen 4242) (world_of_runner a_runner).
Proof.
  apply (StreamReader_disabled_is_noop running
           (Runner.init "r1" [] plugin_dir ∅ false)
           (Popen_wait running (mkPopen 4242)) (world_of_runner a_runner)).
  reflexivity.
Defined.

End RunnerMore.

(** ** What [run] does when nothing fails *)

Module RunMore.
Import Proc RunnerSpec RunnerExamples ExtraExamples PyFacts RunnerFacts RunFacts.

(** X8.  [ProcessRunner.run] without capture, when resolving, spawning and
    waiting succeed: it makes exactly these three requests, the process
    being spawned in the directory that resolving the working directory
    gave (the absolute path, not the text the runner was given) and
    without pipes; it keeps the new process in [self.process]; and it
    logs its start and its end, with the warning about a plugin that ended
    before initializing exactly when no instance id has been associated. *)
Theorem run_without_capture E repr (w : World Runner.ProcessRunner) :
  Runner.capture_streams (self w) = false ->
  env_fail E (steps w) = None ->
  env_fail E (S (steps w)) = None ->
  env_fail E (S (S (steps w))) = None ->
  let p := mkPopen (env_pid E (S (steps w))) in
  let r := self w in
  exists w',
    Runner.run E repr w = Ok tt w'
    /\ self w' = Runner.set_process (Some p) r
    /\ calls w'
       = calls w
         ++ [mkCall (SResolve (path_str (Runner.process_cwd r))) None;
             mkCall (SPopen (Runner.process_args r)
                       (env_resolved E (steps w)) false) None;
             mkCall (SWait (pid p)) None]
    /\ log w'
       = log w
         ++ [mkLog DEBUG ("Starting process with args "
                          ++ repr (Runner.process_args r))%string]
         ++ (if String.eqb (Runner.instance_id r) ""
             then [mkLog WARNING
                     ("Plugin " ++ Runner.str r
                      ++ " terminated before successfully initializing.")%string]
             else [])
         ++ [mkLog DEBUG "Plugin is officially stopped"].
Proof.
  destruct w as [[p0 rs st dd rid iid args cwd env nm cap] cs lg n].
  cbn [self steps Runner.capture_streams]. intros -> H0 H1 H2.
  unfold Runner.run, Runner.run_body, with_context, Runner.StreamReader_enter,
    Runner.StreamReader_exit, Runner.join_if_alive, Runner.the_process,
    resolve, subprocess_Popen, Popen_wait, try_except_Exception, bind,
    request, ask, get_self, set_self, logger_log, ret, raise.
  cbn. rewrite H0. cbn. rewrite H1. cbn. rewrite H2. cbn.
  destruct (String.eqb iid ""); cbn;
    (eexists; split; [reflexivity|]; cbn; rewrite <- ?app_assoc; auto).
Qed.

Lemma run_without_capture_witness :
  exists w',
    Runner.run in_opt repr_args (world_of_runner (relative_runner false))
    = Ok tt w'
    /\ self w' = Runner.set_process (Some (mkPopen 4242)) (relative_runner false)
    /\ calls w'
       = [mkCall (SResolve "plugins/echo-1.0") None;
          mkCall (SPopen ["python"; "main.py"]
                    "/opt/beer-garden/plugins/echo-1.0" false) None;
          mkCall (SWait 4242) None]
    /\ log w'
       = [mkLog DEBUG "Starting process with args [python, main.py]";
          mkLog WARNING
            "Plugin echo-1.0.r1 terminated before successfully initializing.";
          mkLog DEBUG "Plugin is officially stopped"].
Proof.
  apply (run_without_capture in_opt repr_args
           (world_of_runner (relative_runner false))).
  - reflexivity.
  - reflexivity.
  - reflexivity.
  - reflexivity.
Defined.

(** X9.  [ProcessRunner.run] with capture, when everything up to the wait
    succeeds and the reader threads are alive when asked: the process is
    spawned with pipes in the directory that resolving gave; the files
    plugin.stdout and plugin.stderr are opened in the working directory
    as the runner was given it, and the two readers are started, before
    the wait; both readers are joined after the wait, also when the wait
    itself failed; in that case [run] still returns. *)
Theorem run_with_capture_joins_after_wait E repr (w : World Runner.ProcessRunner) :
  Runner.capture_streams (self w) = true ->
  failures_are_Exceptions E ->
  (forall k, (k < 6)%nat -> env_fail E (k + steps w) = None) ->
  (forall k, env_alive E k = true) ->
  let p := mkPopen (env_pid E (S (steps w))) in
  let r := self w in
  let cwd := Runner.process_cwd r in
  exists w',
    Runner.run E repr w = Ok tt w'
    /\ calls w'
       = calls w
         ++ [mkCall (SResolve (path_str cwd)) None;
             mkCall (SPopen (Runner.process_args r)
                       (env_resolved E (steps w)) true) None;
             mkCall (SOpenLog (joinpath cwd "plugin.stdout")) None;
             mkCall (SOpenLog (joinpath cwd "plugin.stderr")) None;
             mkCall (SThreadStart (Runner.str r ++ " STDOUT Reader")%string) None;
             mkCall (SThreadStart (Runner.str r ++ " STDERR Reader")%string) None;
             mkCall (SWait (pid p)) (env_fail E (6 + steps w));
             mkCall (SThreadAlive (Runner.str r ++ " STDOUT Reader")%string) None;
             mkCall (SThreadJoin (Runner.str r ++ " STDOUT Reader")%string) None;
             mkCall (SThreadAlive (Runner.str r ++ " STDERR Reader")%string) None;
             mkCall (SThreadJoin (Runner.str r ++ " STDERR Reader")%string) None].
Proof.
  destruct w as [[p0 rs st dd rid iid args cwd env nm cap] cs lg n].
  cbn [self steps Runner.capture_streams]. intros -> Hfail Hok Halive.
  pose proof (Hok 0%nat ltac:(lia)) as H0.
  pose proof (Hok 1%nat ltac:(lia)) as H1.
  pose proof (Hok 2%nat ltac:(lia)) as H2.
  pose proof (Hok 3%nat ltac:(lia)) as H3.
  pose proof (Hok 4%nat ltac:(lia)) as H4.
  pose proof (Hok 5%nat ltac:(lia)) as H5.
  cbn in H0, H1, H2, H3, H4, H5.
  unfold Runner.run, Runner.run_body, with_context, Runner.StreamReader_enter,
    Runner.StreamReader_exit, Runner.join_if_alive, Runner.the_process,
    resolve, subprocess_Popen, Popen_wait, try_except_Exception, bind,
    request, ask, get_self, set_self, logger_log, ret, raise.
  cbn -[joinpath]. rewrite H0. cbn -[joinpath]. rewrite H1. cbn -[joinpath].
  rewrite H2. cbn -[joinpath]. rewrite H3. cbn -[joinpath].
  rewrite H4. cbn -[joinpath]. rewrite H5. cbn -[joinpath].
  destruct (env_fail E (S (S (S (S (S (S n))))))) as [ex|] eqn:H6; cbn -[joinpath];
    rewrite !Halive; cbn -[joinpath].
  - rewrite (Hfail _ _ H6). cbn -[joinpath].
    eexists; split; [reflexivity|]. cbn -[joinpath]. now rewrite <- !app_assoc.
  - destruct (String.eqb iid ""); cbn -[joinpath];
      (eexists; split; [reflexivity|]; cbn -[joinpath]; now rewrite <- !app_assoc).
Qed.

Lemma run_with_capture_joins_after_wait_witness :
  exists w',
    Runner.run in_opt repr_args (world_of_runner (relative_runner true))
    = Ok tt w'
    /\ calls w'
       = [mkCall (SResolve "plugins/echo-1.0") None;
          mkCall (SPopen ["python"; "main.py"]
                    "/opt/beer-garden/plugins/echo-1.0" true) None;
          mkCall (SOpenLog "plugins/echo-1.0/plugin.stdout") None;
          mkCall (SOpenLog "plugins/echo-1.0/plugin.stderr") None;
          mkCall (SThreadStart "echo-1.0.r1 STDOUT Reader") None;
          mkCall (SThreadStart "echo-1.0.r1 STDERR Reader") None;
          mkCall (SWait 4242) None;
          mkCall (SThreadAlive "echo-1.0.r1 STDOUT Reader") None;
          mkCall (SThreadJoin "echo-1.0.r1 STDOUT Reader") None;
          mkCall (SThreadAlive "echo-1.0.r1 STDERR Reader") None;
          mkCall (SThreadJoin "echo-1.0.r1 STDERR Reader") None].
Proof.
  apply (run_with_capture_joins_after_wait in_opt repr_args
           (world_of_runner (relative_runner true))).
  - reflexivity.
  - intros n ex H. discriminate H.
  - intros k _. reflexivity.
  - intros k. reflexivity.
Defined.



End RunMore.

(** ** The monitor over many sweeps *)

Module MonitorMore.
Import Monitor MonitorSpec MonitorExamples MonitorMoreSpec MonitorMoreExamples.
Import PyFacts MonitorFacts.

Lemma tabled_refl E self i : tabled E self i i.
Proof. now left. Qed.

Lemma Forall2_tabled_refl E self l : Forall2 (tabled E self) l l.
Proof. induction l; constructor; auto using tabled_refl. Qed.

Lemma for_instances_tabled E self sid todo : forall seen w,
  store w !! sid = Some (seen ++ todo) ->
  let w' := world_of (for_instances E self sid seen todo w) in
  exists todo',
    store w' !! sid = Some (seen ++ todo')
    /\ Forall2 (tabled E self) todo todo'
    /\ (forall k, k <> sid -> store w' !! k = store w !! k).
Proof.
  induction todo as [|i rest IH]; intros seen w Hsid; cbv zeta.
  - exists []. cbn. auto.
  - rewrite for_instances_cons.
    destruct (env_stop_set E (steps w)) eqn:Hstop.
    { exists (i :: rest). cbn. auto using Forall2_tabled_refl. }
    destruct (check_instance_spec E self sid seen i rest (tick w))
      as [Hk|Hk Hs|Hk Hs|s Hk Hs Hrs Hdb|s ex Hk Hs Hrs Hdb].
    + exists (i :: rest). cbn. auto using Forall2_tabled_refl.
    + destruct (IH (seen ++ [i]) (tick w)) as (todo' & H1 & H2 & H3).
      { cbn. now rewrite <- app_assoc. }
      exists (i :: todo'). rewrite <- app_assoc in H1. cbn in *.
      repeat split; auto using tabled_refl.
    + destruct (IH (seen ++ [i]) (tick (tick w))) as (todo' & H1 & H2 & H3).
      { cbn. now rewrite <- app_assoc. }
      exists (i :: todo'). rewrite <- app_assoc in H1. cbn in *.
      repeat split; auto using tabled_refl.
    + set (w1 := updated _ _).
      destruct (IH (seen ++ [set_status s i]) w1) as (todo' & H1 & H2 & H3).
      { subst w1. cbn. rewrite lookup_insert_eq. now rewrite <- app_assoc. }
      exists (set_status s i :: todo'). rewrite <- app_assoc in H1. cbn in *.
      repeat split; auto.
      * constructor; [|assumption]. right. exists (steps (tick w)). now rewrite Hs.
      * intros k Hne. rewrite H3 by assumption. subst w1. cbn.
        now rewrite lookup_insert_ne.
    + exists (i :: rest). cbn. auto using Forall2_tabled_refl.
Qed.

Lemma for_systems_tabled E self systems : forall w,
  NoDup (sys_id <$> systems) ->
  (forall s, s ∈ systems -> store w !! sys_id s = Some (instances s)) ->
  let w' := world_of (for_systems E self systems w) in
  (forall s, s ∈ systems ->
     exists l', store w' !! sys_id s = Some l'
       /\ Forall2 (tabled E self) (instances s) l')
  /\ (forall k, k ∉ sys_id <$> systems -> store w' !! k = store w !! k).
Proof.
  induction systems as [|s more IH]; intros w Hnd Hin; cbv zeta.
  - cbn. split; auto. intros s Hs. now apply elem_of_nil in Hs.
  - rewrite fmap_cons in Hnd. apply NoDup_cons in Hnd as [Hfresh Hnd].
    rewrite for_systems_cons.
    destruct (for_instances_tabled E self (sys_id s) (instances s) [] w)
      as (l1 & H1 & H2 & H3).
    { cbn. apply Hin. left. }
    cbn in H1.
    assert (Hmore : forall s', s' ∈ more ->
              store (world_of (for_instances E self (sys_id s) [] (instances s) w))
                !! sys_id s' = Some (instances s')).
    { intros s' Hs'. rewrite H3.
      - apply Hin. now right.
      - intros Heq. apply Hfresh. rewrite <- Heq.
        now apply list_elem_of_fmap_2. }
    assert (Houter : forall k, k ∉ sys_id <$> s :: more ->
              store (world_of (for_instances E self (sys_id s) [] (instances s) w))
                !! k = store w !! k).
    { intros k Hk. apply H3. intros ->. apply Hk. rewrite fmap_cons. left. }
    destruct (for_instances E self (sys_id s) [] (instances s) w)
      as [[] w1|ex w1|w1] eqn:Hfi; cbn [world_of] in *.
    + destruct (IH w1 Hnd Hmore) as (I1 & I2).
      split.
      * intros s' Hs'. apply elem_of_cons in Hs' as [->|Hs'].
        -- exists l1. split; [|assumption]. now rewrite I2.
        -- now apply I1.
      * intros k Hk. rewrite I2.
        -- now apply Houter.
        -- intros Hk'. apply Hk. rewrite fmap_cons. now right.
    + split; auto.
      intros s' Hs'. apply elem_of_cons in Hs' as [->|Hs'].
      * eauto.
      * exists (instances s'). split; [now apply Hmore|apply Forall2_tabled_refl].
    + split; auto.
      intros s' Hs'. apply elem_of_cons in Hs' as [->|Hs'].
      * eauto.
      * exists (instances s'). split; [now apply Hmore|apply Forall2_tabled_refl].
Qed.

Lemma sweep_tabled E self w :
  let w' := world_of (sweep E self w) in
  forall k l, store w !! k = Some l ->
    exists l', store w' !! k = Some l' /\ Forall2 (tabled E self) l l'.
Proof.
  cbv zeta. intros k l Hk. rewrite sweep_unfold.
  destruct (request_status_store E self w) as (Hs & _ & _).
  destruct (request_status E self w) as [[] w1|ex w1|w1]; cbn [world_of] in *;
    [|exists l; split; [congruence|apply Forall2_tabled_refl]..].
  rewrite check_status_unfold.
  destruct (env_db_error E (steps w1)) as [ex|].
  { exists l. split; [cbn; congruence|apply Forall2_tabled_refl]. }
  destruct (for_systems_tabled E self (systems_of (store w1))
              (tick (with_call (Query None) w1))) as (H1 & _).
  - apply systems_of_NoDup.
  - intros s Hs'. now apply elem_of_systems_of.
  - apply (H1 (mkSystem k l)). apply elem_of_systems_of. cbn. congruence.
Qed.

Lemma settled_tabled E self i i' :
  settled E self i -> tabled E self i i' -> i' = i.
Proof.
  intros Hs [->|(n & ->)]; [reflexivity|].
  rewrite Hs. apply set_status_same.
Qed.

Lemma run_loop_keeps_settled E self sid k i fuel : forall w insts,
  store w !! sid = Some insts -> insts !! k = Some i ->
  settled E self i ->
  exists insts',
    store (world_of (run_loop E self fuel w)) !! sid = Some insts'
    /\ insts' !! k = Some i.
Proof.
  induction fuel as [|fuel IH]; intros w insts Hsid Hk Hset.
  - exists insts. cbn. auto.
  - rewrite run_loop_unfold.
    destruct (env_stop_set E (steps w)); [exists insts; cbn; auto|].
    destruct (sweep_tabled E self (tick w) sid insts Hsid) as (l1 & Hl1 & Hall).
    destruct (Forall2_lookup_l _ _ _ _ _ Hall Hk) as (i' & Hk' & Ht).
    apply (settled_tabled E self i i' Hset) in Ht. subst i'.
    destruct (sweep E self (tick w)) as [[] w2|ex w2|w2]; cbn [world_of] in *;
      eauto.
Qed.

Lemma run_store E self fuel w :
  store (world_of (run E self fuel w))
  = store (world_of (run_loop E self fuel (with_log (mkLog INFO (display_name self ++ " is started")%string) w))).
Proof.
  unfold run, bind, logger_info.
  now destruct (run_loop E self fuel _) as [[] w1|ex w1|w1].
Qed.

(** X11.  An instance that the table leaves alone at every reading of the clock
    is stored unchanged after [run], however many sweeps it makes, whatever
    the surroundings do and however it ends.  This covers a RUNNING
    instance whose heartbeat stays within the timeout (repeated sweeps
    never move it away from RUNNING). *)
Theorem run_keeps_settled_instance E self fuel w sid insts k i :
  store w !! sid = Some insts -> insts !! k = Some i ->
  settled E self i ->
  exists insts',
    store (world_of (run E self fuel w)) !! sid = Some insts'
    /\ insts' !! k = Some i.
Proof.
  intros Hsid Hk Hset. rewrite run_store.
  now apply (run_loop_keeps_settled E self sid k i fuel _ insts).
Qed.

Lemma running_fresh_settled E self i hb :
  status i = "RUNNING" -> heartbeat_of i = Some hb ->
  (forall n, env_utcnow E n - hb < timeout self) ->
  settled E self i.
Proof.
  intros Hst Hhb Hfresh n. rewrite Hhb, spec_next_status_code, Hst. cbn.
  specialize (Hfresh n).
  destruct (Z.geb_spec (env_utcnow E n - hb) (timeout self)); [lia|reflexivity].
Qed.

Lemma run_keeps_settled_instance_witness :
  exists insts',
    store (world_of (run calm default 5 fresh_system)) !! "s1" = Some insts'
    /\ insts' !! 0%nat = Some (inst "a" "RUNNING" (Some (seconds 95))).
Proof.
  apply (run_keeps_settled_instance calm default 5 fresh_system "s1"
           [inst "a" "RUNNING" (Some (seconds 95));
            inst "d" "STOPPED" (Some (seconds 95))] 0
           (inst "a" "RUNNING" (Some (seconds 95)))).
  - reflexivity.
  - reflexivity.
  - intros n. reflexivity.
Defined.

Lemma unmonitored_settled E self i : ~ monitored (status i) -> settled E self i.
Proof.
  intros Hno n. unfold spec_next_status.
  destruct (heartbeat_of i); [|reflexivity].
  rewrite (bool_decide_eq_false_2 (status i = "RUNNING")).
  - rewrite (bool_decide_eq_false_2 (status i ∈ _)); [reflexivity|].
    intros Hin. apply Hno. unfold monitored. now right.
  - intros Heq. apply Hno. unfold monitored. rewrite Heq. left.
Qed.

(** X12.  An instance whose status is none of RUNNING, UNRESPONSIVE, STARTING,
    INITIALIZING and UNKNOWN (a STOPPED or DEAD one, say) is stored
    unchanged after [run], whatever its heartbeat, however many sweeps are
    made and whatever the surroundings do. *)
Theorem run_never_touches_unmonitored_status E self fuel w sid insts k i :
  store w !! sid = Some insts -> insts !! k = Some i ->
  ~ monitored (status i) ->
  exists insts',
    store (world_of (run E self fuel w)) !! sid = Some insts'
    /\ insts' !! k = Some i.
Proof.
  intros Hsid Hk Hno. rewrite run_store.
  apply (run_loop_keeps_settled E self sid k i fuel _ insts); try assumption.
  now apply unmonitored_settled.
Qed.

Lemma run_never_touches_unmonitored_status_witness :
  exists insts',
    store (world_of (run calm default 5 fresh_system)) !! "s1" = Some insts'
    /\ insts' !! 1%nat = Some (inst "d" "STOPPED" (Some (seconds 95))).
Proof.
  apply (run_never_touches_unmonitored_status calm default 5 fresh_system "s1"
           [inst "a" "RUNNING" (Some (seconds 95));
            inst "d" "STOPPED" (Some (seconds 95))] 1
           (inst "d" "STOPPED" (Some (seconds 95)))).
  - reflexivity.
  - reflexivity.
  - unfold monitored. cbn. intros H.
    repeat (apply elem_of_cons in H as [H|H]; [discriminate H|]).
    now apply elem_of_nil in H.
Defined.

(** X13.  Whatever the surroundings do and however the sweep ends, a sweep
    hands the broker one message when the broker accepts it, the status
    request with routing key "admin" and the sweep period in milliseconds
    as its expiration, and none otherwise; and the only record a sweep ever
    logs is the warning about a publish that failed. *)
Theorem sweep_publishes_one_probe E self w :
  let w' := world_of (sweep E self w) in
  broker w'
  = broker w ++ match env_queue_error E (steps w) with
                | None => [probe self]
                | Some _ => []
                end
  /\ log w'
     = log w ++ match env_queue_error E (steps w) with
                | Some ex =>
                    if is_Exception ex
                    then [mkLog WARNING
                            ("Unable to publish status request: " ++ str_exn ex)%string]
                    else []
                | None => []
                end.
Proof.
  cbv zeta. rewrite sweep_unfold.
  destruct (env_queue_error E (steps w)) as [ex|] eqn:Hq.
  - destruct (is_Exception ex) eqn:Hex.
    + rewrite (request_status_caught E self w ex Hq Hex).
      destruct (check_status_store E self (publish_failed ex w))
        as (_ & _ & _ & Hl & Hb).
      rewrite Hl, Hb. cbn. now rewrite app_nil_r.
    + rewrite (request_status_not_caught E self w ex Hq Hex). cbn.
      now rewrite !app_nil_r.
  - rewrite (request_status_published E self w Hq).
    match goal with |- context [check_status E self ?w1] =>
      destruct (check_status_store E self w1) as (_ & _ & _ & Hl & Hb)
    end.
    rewrite Hl, Hb. cbn. now rewrite app_nil_r.
Qed.

Lemma sweep_steps E self w : (steps w <= steps (world_of (sweep E self w)))%nat.
Proof.
  rewrite sweep_unfold.
  destruct (request_status_store E self w) as (_ & _ & Hs).
  destruct (request_status E self w) as [[] w1|ex w1|w1]; cbn [world_of] in *;
    try lia.
  destruct (check_status_store E self w1) as (_ & _ & Hle & _). lia.
Qed.

(** X14.  The loop of [run] never ends of its own accord: when it returns, the
    last question it asked was a wait that found the stop event set. *)
Theorem run_loop_returns_only_when_stopped E self fuel : forall w w',
  run_loop E self fuel w = Ok tt w' ->
  exists n, steps w' = S n /\ (steps w <= n)%nat /\ env_stop_set E n = true.
Proof.
  induction fuel as [|fuel IH]; intros w w' Hrun; [discriminate Hrun|].
  rewrite run_loop_unfold in Hrun.
  destruct (env_stop_set E (steps w)) eqn:Hstop.
  - injection Hrun as <-. exists (steps w). cbn. auto.
  - pose proof (sweep_steps E self (tick w)) as Hle.
    destruct (sweep E self (tick w)) as [[] w2|ex w2|w2]; try discriminate Hrun.
    destruct (IH w2 w' Hrun) as (n & Hn & Hge & Hset).
    exists n. cbn in Hle. repeat split; auto. lia.
Qed.

Lemma run_loop_returns_only_when_stopped_witness :
  exists n, steps (tick fresh_system) = S n
    /\ (steps fresh_system <= n)%nat
    /\ env_stop_set stopped_at_once n = true.
Proof.
  apply (run_loop_returns_only_when_stopped stopped_at_once default 1
           fresh_system (tick fresh_system)).
  reflexivity.
Defined.

End MonitorMore.

(** ** A watcher without a path *)

Module WatcherMore.
Import Watcher WatcherSpec WatcherExamples PyFacts WatcherFacts.

Lemma dispatch_all_unwatched match_path self events : forall w,
  watch self = None ->
  dispatch_all match_path self events w = Ok tt w.
Proof.
  induction events as [|ev more IH]; intros w Hw; [reflexivity|].
  cbn [dispatch_all]. unfold bind, dispatch. rewrite Hw. cbn. now apply IH.
Qed.

(** X15.  [MonitorFile] built with no path, or with the empty path, watches
    nothing: [__init__] starts no observer and sets none of the event
    attributes, no occurrence whatever reaches a callback, so nothing is
    ever published, and [stop] does nothing.  A callback called directly
    on such an object raises [AttributeError]. *)
Theorem monitor_file_without_path dirname scan p c m mv d w :
  truthy_path p = false ->
  exists self,
    init dirname scan p c m mv d w = Ok self w
    /\ file self = p /\ watch self = None
    /\ (forall match_path events w',
          dispatch_all match_path self events w' = Ok tt w')
    /\ (forall w', stop self w' = Ok tt w')
    /\ (forall ev w',
          on_created self ev w'
          = Raise (mkExn AttributeError
                     "'MonitorFile' object has no attribute 'create_event'") w').
Proof.
  intros Hp. exists {| file := p; watch := None |}.
  repeat split.
  - unfold init. destruct p as [s|]; [|reflexivity].
    cbn in Hp. now rewrite Hp.
  - intros match_path events w'. now apply dispatch_all_unwatched.
  - intros w'. unfold stop. cbn. now rewrite Hp.
Qed.

Lemma monitor_file_without_path_witness :
  exists self,
    init (fun s => s) scan_garden (Some "") (Some created_ev) None None
      (Some deleted_ev) nothing_published
    = Ok self nothing_published
    /\ file self = Some "" /\ watch self = None
    /\ (forall match_path events w',
          dispatch_all match_path self events w' = Ok tt w')
    /\ (forall w', stop self w' = Ok tt w')
    /\ (forall ev w',
          on_created self ev w'
          = Raise (mkExn AttributeError
                     "'MonitorFile' object has no attribute 'create_event'") w').
Proof.
  apply (monitor_file_without_path (fun s => s) scan_garden (Some "")
           (Some created_ev) None None (Some deleted_ev) nothing_published).
  reflexivity.
Defined.

(** X16.  [MonitorFile] built for a non-empty path whose directory cannot
    be listed: [__init__] raises the error of the operating system that
    starting the observer met; no watcher comes back, no observer is
    running and nothing is published. *)
Theorem init_raises_without_directory dirname scan p c m mv d w ex :
  p <> "" -> scan (dirname p) = inl ex ->
  init dirname scan (Some p) c m mv d w = Raise ex w.
Proof.
  intros Hp Hscan. unfold init, observer_start, bind.
  destruct (String.eqb_spec p "") as [->|_]; [congruence|]. cbn.
  now rewrite Hscan.
Qed.

Lemma init_raises_without_directory_witness :
  init (fun _ => "/nowhere") scan_garden (Some "/nowhere/children.yaml")
    (Some created_ev) None None None nothing_published
  = Raise no_such_directory nothing_published.
Proof.
  apply (init_raises_without_directory (fun _ => "/nowhere") scan_garden
           "/nowhere/children.yaml" (Some created_ev) None None None
           nothing_published no_such_directory).
  - discriminate.
  - reflexivity.
Defined.

(** X17.  A move of a file reaches [on_moved] when the path moved from or
    the path moved to matches a pattern of the watcher: the watcher then
    publishes the moved event, once, when one is configured, and nothing
    when none is. *)
Theorem move_publishes_moved_event match_path self wt src dest w :
  watch self = Some wt ->
  existsb (fun pat => match_path pat src) (patterns wt)
  || existsb (fun pat => match_path pat dest) (patterns wt) = true ->
  dispatch match_path self (mkFsEvent Moved src (Some dest) false) w
  = Ok tt (add_published (option_list (moved_event wt)) w).
Proof.
  intros Hw Hm.
  rewrite (dispatch_publishes match_path self wt _ w Hw).
  unfold to_publish, delivered, event_paths. cbn.
  rewrite andb_false_r, orb_false_r. cbn.
  rewrite orb_comm in Hm. rewrite Hm. cbn.
  now destruct (moved_event wt).
Qed.

Lemma move_publishes_moved_event_witness :
  dispatch same_path a_mover
    (mkFsEvent Moved "/etc/garden/children.bak" (Some watched) false) watching
  = Ok tt (add_published [moved_ev] watching).
Proof.
  apply (move_publishes_moved_event same_path a_mover a_moving_watch
           "/etc/garden/children.bak" watched watching).
  - reflexivity.
  - reflexivity.
Defined.

Lemma observe_stopped match_path self polls : forall w,
  snapshot w = None -> observe match_path self polls w = Ok tt w.
Proof.
  induction polls as [|seen more IH]; intros w Hs; [reflexivity|].
  cbn [observe]. unfold bind, poll. rewrite Hs. now apply IH.
Qed.

(** X18.  [stop] on a watcher built for a path stops the observer and
    publishes nothing; whatever the directory shows at later polls,
    nothing is published any more; and a second [stop] changes nothing. *)
Theorem stop_ends_publishing match_path self w :
  truthy_path (file self) = true ->
  exists w1,
    stop self w = Ok tt w1
    /\ published w1 = published w
    /\ observing w1 = false
    /\ (forall polls, observe match_path self polls w1 = Ok tt w1)
    /\ stop self w1 = Ok tt w1.
Proof.
  intros Hp. unfold stop. rewrite Hp.
  eexists. split; [reflexivity|]. cbn. repeat split.
  intros polls. now apply observe_stopped.
Qed.

Lemma stop_ends_publishing_witness :
  exists w1,
    stop a_watcher watching = Ok tt w1
    /\ published w1 = published watching
    /\ observing w1 = false
    /\ (forall polls, observe same_path a_watcher polls w1 = Ok tt w1)
    /\ stop a_watcher w1 = Ok tt w1.
Proof.
  apply (stop_ends_publishing same_path a_watcher watching).
  reflexivity.
Defined.

End WatcherMore.
